(** * Preprocessing.ipynb: the streaming reduction and sampling pipeline

    A shallow embedding of the code cells of [src/Preprocessing.ipynb]:
    the review compactor (cell 8), the user sampler and review filter
    (cell 13), the metadata join filter (cell 16) and the quality filter
    (cell 19), together with the [pd.read_csv] cells between them.

    Modelling conventions.
    - A Python literal is a [pyval]; a record of either corpus is a
      [pydict], an association list in insertion order.
    - A [DataFrame] is its list of visible column labels and its rows; the
      entry of a row under a label it lacks is NaN, written [None].
    - A double is never computed with: a [pyfloat] is kept as what made it.
    - A CSV artifact is the list of its lines, each the list of its fields.
      A field is [None] when it is empty and [Some (PStr s)] when its
      characters are [s]; the field of a double, a list or a dict is that
      value, which stands for its rendering ([repr] of the double, [str] of
      the list or dict), whose characters are not modelled.  Quoting is not
      modelled either: a field is what the reader gets after unquoting.
      Equal artifacts here are byte-identical files.
    - [pd.read_csv] is modelled with its defaults: the markers it reads as
      missing, the implicit index of a file with more fields than names, and
      the type inference of each column in the cast order int64, float64,
      bool, object.  Of the float converter only the syntax it accepts is
      modelled, not its range check.  A list or a dict read back is the
      string of its rendering and is kept as the value.
    - [pd.read_json]'s conversion of the column types of a chunk is not
      modelled: cell 8 here writes the values of the records as they are.
    - [numpy]'s global generator is a parameter ([Generator]): its state,
      its seeding and [permutation], which returns a permutation of
      [0 .. n-1].
    - A cell runs in the state-and-exception monad [M] over the [world]:
      the files under [dataset/] and the state of [np.random]. *)

From stdpp Require Import base option list strings pretty gmap.
From Stdlib Require Import ZArith Ascii.

Open Scope string_scope.
Open Scope list_scope.
Open Scope nat_scope.

(** ** Python values *)

#[local] Set Warnings "-register-all,-clear-no-such-hyp".

(** A double: a literal of a corpus, what the float converter of
    [pd.read_csv] makes of a numeric text or of the [repr] of a double, or
    an int cast to float64. *)
Inductive pyfloat : Type :=
  | float_literal (text : string)
  | float_of_text (text : string)
  | float_of_int (n : Z)
  | float_of_repr (x : pyfloat).

#[global] Instance pyfloat_eq_decision : EqDecision pyfloat.
Proof. solve_decision. Defined.

Inductive pyval : Type :=
  | PNone
  | PBool (b : bool)
  | PInt (n : Z)
  | PFloat (x : pyfloat)
  | PStr (s : string)
  | PList (l : list pyval)
  | PDict (d : list (string * pyval)).

Lemma pyval_eq_dec : ∀ x y : pyval, {x = y} + {x ≠ y}.
Proof.
  fix IH 1. intros x y.
  decide equality.
  - apply Bool.bool_dec.
  - apply Z.eq_dec.
  - apply pyfloat_eq_decision.
  - apply String.string_dec.
  - apply (List.list_eq_dec IH).
  - apply List.list_eq_dec. intros [k v] [k' v'].
    destruct (String.string_dec k k') as [->|Hk]; [|right; congruence].
    destruct (IH v v') as [->|Hv]; [left; reflexivity|right; congruence].
Defined.

#[global] Instance pyval_eq_decision : EqDecision pyval := pyval_eq_dec.

(** A dict as [ast.literal_eval] and the JSON reader build it. *)
Abbreviation pydict := (list (string * pyval)).

(** [d.get(k)]: the first binding of [k]. *)
Fixpoint dict_get (d : pydict) (k : string) : option pyval :=
  match d with
  | [] => None
  | (k', v) :: d => if decide (k' = k) then Some v else dict_get d k
  end.

(** [d.pop(k, None)], for its effect on [d]: no binding of [k] is left,
    and a dict without [k] is unchanged. *)
Definition dict_pop (k : string) (d : pydict) : pydict :=
  filter (λ kv, kv.1 ≠ k) d.

Definition keys (d : pydict) : list string := d.*1.

(** ** Exceptions and the cell monad *)

Inductive exn : Type :=
  | ValueError | KeyError | IndexError | SyntaxError | FileNotFoundError
  | ZeroDivisionError.

#[global] Instance exn_eq_decision : EqDecision exn.
Proof. solve_decision. Defined.

Inductive result (A : Type) : Type :=
  | Ok (a : A)
  | Raise (e : exn).
Arguments Ok {A} a.
Arguments Raise {A} e.

#[global] Instance result_eq_decision {A} `{EqDecision A} : EqDecision (result A).
Proof. solve_decision. Defined.

Definition is_ok {A} (r : result A) : bool :=
  match r with Ok _ => true | Raise _ => false end.

(** ** DataFrames *)

(** An entry of a frame; [None] is NaN. *)
Abbreviation cell := (option pyval).

(** [pd.isna]: NaN and Python's None are both missing. *)
Definition isna (c : cell) : bool :=
  match c with
  | None | Some PNone => true
  | Some _ => false
  end.

Record DataFrame : Type := mkDataFrame {
  columns : list string;
  rows : list pydict
}.

(** Values in order of first appearance, as the hash-table pass of
    [Series.unique] and of the column inference keeps them. *)
Fixpoint unique_from {A} `{EqDecision A} (seen l : list A) : list A :=
  match l with
  | [] => []
  | x :: l =>
      if decide (x ∈ seen) then unique_from seen l
      else x :: unique_from (x :: seen) l
  end.

Definition unique {A} `{EqDecision A} (l : list A) : list A :=
  unique_from [] l.

(** [pd.DataFrame.from_dict(data, orient='columns')] on a list of dicts,
    and the frame [pd.read_json] builds from the records of one chunk:
    one column per key that occurs in some record. *)
Definition from_dict (data : list pydict) : DataFrame :=
  {| columns := unique (data ≫= keys); rows := data |}.

(** [df[label]]: the column, or [KeyError] when the frame has no such
    label. *)
Definition getitem (df : DataFrame) (label : string) : result (list cell) :=
  if decide (label ∈ columns df)
  then Ok ((λ r, dict_get r label) <$> rows df)
  else Raise KeyError.

(** [s.isin(values)]. *)
Definition isin (s values : list cell) : list bool :=
  (λ c, bool_decide (c ∈ values)) <$> s.

(** [df[mask]] for a boolean mask aligned with the rows. *)
Fixpoint mask_rows {A} (l : list A) (mask : list bool) : list A :=
  match l, mask with
  | x :: l, b :: mask => if b then x :: mask_rows l mask else mask_rows l mask
  | _, _ => []
  end.

Definition getitem_mask (df : DataFrame) (mask : list bool) : DataFrame :=
  {| columns := columns df; rows := mask_rows (rows df) mask |}.

(** [df[[l1, ..., ln]]]: the listed columns in the listed order;
    [KeyError] when a label is not a column of the frame. *)
Definition getitem_list (df : DataFrame) (labels : list string)
  : result DataFrame :=
  if decide (labels ⊆ columns df)
  then Ok {| columns := labels; rows := rows df |}
  else Raise KeyError.

(** [df.drop(columns=labels)] with the default [errors='raise']. *)
Definition drop_columns (df : DataFrame) (labels : list string)
  : result DataFrame :=
  if decide (labels ⊆ columns df)
  then Ok {| columns := filter (λ c, c ∉ labels) (columns df);
             rows := rows df |}
  else Raise KeyError.

(** [df.dropna(axis=0, subset=labels)]. *)
Definition dropna (df : DataFrame) (subset : list string) : result DataFrame :=
  if decide (subset ⊆ columns df)
  then Ok {| columns := columns df;
             rows := filter (λ r, Forall (λ c, isna (dict_get r c) = false) subset)
                       (rows df) |}
  else Raise KeyError.

(** ** CSV artifacts *)

Abbreviation csv := (list (list cell)).

(** [str(b)] for a bool. *)
Definition str_bool (b : bool) : string := if b then "True" else "False".

(** The field [to_csv] writes for an entry: nothing for a missing entry
    ([na_rep='']) and for the empty string, the characters of a string, the
    decimal numeral of an int, [True] or [False] for a bool. *)
Definition csv_field (c : cell) : cell :=
  match c with
  | None | Some PNone => None
  | Some (PStr s) => if decide (s = "") then None else Some (PStr s)
  | Some (PInt n) => Some (PStr (pretty n))
  | Some (PBool b) => Some (PStr (str_bool b))
  | Some (PFloat x) => Some (PFloat x)
  | Some (PList l) => Some (PList l)
  | Some (PDict d) => Some (PDict d)
  end.

(** The lines [df.to_csv(path, header=False, index=False)] writes: one per
    row, its fields in column order. *)
Definition to_csv_rows (df : DataFrame) : csv :=
  (λ r, (λ c, csv_field (dict_get r c)) <$> columns df) <$> rows df.

(** *** What [pd.read_csv] makes of a field *)

(** [STR_NA_VALUES]: the texts read as missing (pandas 2). *)
Definition STR_NA_VALUES : list string :=
  [""; "#N/A"; "#N/A N/A"; "#NA"; "-1.#IND"; "-1.#QNAN"; "-NaN"; "-nan";
   "1.#IND"; "1.#QNAN"; "<NA>"; "N/A"; "NA"; "NULL"; "NaN"; "None"; "n/a";
   "nan"; "null"].

(** The field is read as missing: it is empty or holds one of the markers. *)
Definition na_field (f : cell) : bool :=
  match csv_field f with
  | None => true
  | Some (PStr s) => bool_decide (s ∈ STR_NA_VALUES)
  | Some _ => false
  end.

Definition isspace_ascii (a : ascii) : bool :=
  let c := nat_of_ascii a in (c =? 32) || ((9 <=? c) && (c <=? 13)).

Definition isdigit_ascii (a : ascii) : bool :=
  let c := nat_of_ascii a in (48 <=? c) && (c <=? 57).

Definition tolower_ascii (a : ascii) : ascii :=
  let c := nat_of_ascii a in
  if (65 <=? c) && (c <=? 90) then ascii_of_nat (c + 32) else a.

Fixpoint lower (s : string) : string :=
  match s with
  | EmptyString => EmptyString
  | String a s => String (tolower_ascii a) (lower s)
  end.

Fixpoint skip_space (s : string) : string :=
  match s with
  | EmptyString => EmptyString
  | String a s' => if isspace_ascii a then skip_space s' else s
  end.

(** The number of a run of digits, from the digits read so far, and what
    follows the run. *)
Fixpoint digits (number : Z) (s : string) : Z * string :=
  match s with
  | EmptyString => (number, EmptyString)
  | String a s' =>
      if isdigit_ascii a
      then digits (10 * number + (Z.of_nat (nat_of_ascii a) - 48)) s'
      else (number, s)
  end.

Definition INT64_MIN : Z := - 2 ^ 63.
Definition INT64_MAX : Z := 2 ^ 63 - 1.
Definition UINT64_MAX : Z := 2 ^ 64 - 1.

Inductive parse_error : Type :=
  | ERROR_NO_DIGITS | ERROR_OVERFLOW | ERROR_INVALID_CHARS.

#[global] Instance parse_error_eq_decision : EqDecision parse_error.
Proof. solve_decision. Defined.

Inductive conversion (A : Type) : Type :=
  | Converted (a : A)
  | Failed (e : parse_error).
Arguments Converted {A} a.
Arguments Failed {A} e.

#[global] Instance conversion_eq_decision {A} `{EqDecision A} :
  EqDecision (conversion A).
Proof. solve_decision. Defined.

Definition skip_sign (s : string) : bool * string :=
  match s with
  | String "-" s' => (true, s')
  | String "+" s' => (false, s')
  | _ => (false, s)
  end.

(** [str_to_int64] of the tokenizer: spaces, an optional sign, digits,
    spaces; the overflow is found while the digits are read. *)
Definition str_to_int64 (s : string) : conversion Z :=
  let '(isneg, p) := skip_sign (skip_space s) in
  match p with
  | EmptyString => Failed ERROR_NO_DIGITS
  | String a _ =>
      if isdigit_ascii a then
        let '(number, p) := digits 0 p in
        let number := if isneg then (- number)%Z else number in
        if decide (INT64_MIN ≤ number ≤ INT64_MAX)%Z then
          match skip_space p with
          | EmptyString => Converted number
          | String _ _ => Failed ERROR_INVALID_CHARS
          end
        else Failed ERROR_OVERFLOW
      else Failed ERROR_NO_DIGITS
  end.

(** [str_to_uint64]: a minus sign is only recorded ([seen_sint]). *)
Inductive uint_word : Type :=
  | seen_sint
  | uint (n : Z).

Definition str_to_uint64 (s : string) : conversion uint_word :=
  match skip_space s with
  | String "-" _ => Converted seen_sint
  | p =>
      let p := match p with String "+" p' => p' | _ => p end in
      match p with
      | EmptyString => Failed ERROR_NO_DIGITS
      | String a _ =>
          if isdigit_ascii a then
            let '(number, p) := digits 0 p in
            if decide (number ≤ UINT64_MAX)%Z then
              match skip_space p with
              | EmptyString => Converted (uint number)
              | String _ _ => Failed ERROR_INVALID_CHARS
              end
            else Failed ERROR_OVERFLOW
          else Failed ERROR_NO_DIGITS
      end
  end.

(** The length of a run of digits and what follows it. *)
Fixpoint digit_run (s : string) : nat * string :=
  match s with
  | EmptyString => (0, EmptyString)
  | String a s' =>
      if isdigit_ascii a
      then let '(n, rest) := digit_run s' in (S n, rest)
      else (0, s)
  end.

(** The spellings of infinity the float converter takes. *)
Definition inf_words : list string :=
  ["inf"; "+inf"; "-inf"; "infinity"; "+infinity"; "-infinity"].

(** The texts the float converter accepts: spaces, an optional sign, digits
    with an optional decimal point and at least one digit, an optional
    exponent with at least one digit, spaces; and the spellings of
    infinity.  A text whose number is out of the range of a double is
    refused by the converter and accepted here. *)
Definition to_double (s : string) : bool :=
  let '(_, p) := skip_sign (skip_space s) in
  let '(num_digits, p) := digit_run p in
  let '(num_decimals, p) :=
    match p with
    | String "." p' => digit_run p'
    | _ => (0, p)
    end in
  let p :=
    match p with
    | String a p' =>
        if bool_decide (tolower_ascii a = "e"%char) then
          let '(exponent_digits, rest) := digit_run (skip_sign p').2 in
          if exponent_digits =? 0 then p else rest
        else p
    | EmptyString => p
    end in
  (negb (num_digits + num_decimals =? 0) && bool_decide (skip_space p = ""))
  || bool_decide (lower s ∈ inf_words).

(** [to_boolean] after the sets of true and false values: the two words in
    any case. *)
Definition to_boolean (s : string) : option bool :=
  if decide (lower s = "true") then Some true
  else if decide (lower s = "false") then Some false
  else None.

(** The converters on a field that is not missing.  The rendering of a
    double has a decimal point, an exponent or is [inf]; that of a list or
    a dict begins with a bracket. *)
Definition word_to_int64 (f : cell) : conversion Z :=
  match f with
  | Some (PStr s) => str_to_int64 s
  | _ => Failed ERROR_NO_DIGITS
  end.

Definition word_to_uint64 (f : cell) : conversion uint_word :=
  match f with
  | Some (PStr s) => str_to_uint64 s
  | _ => Failed ERROR_NO_DIGITS
  end.

Definition word_to_double (f : cell) : bool :=
  match f with
  | Some (PStr s) => to_double s
  | Some (PFloat _) => true
  | _ => false
  end.

Definition word_to_boolean (f : cell) : bool :=
  match f with
  | Some (PStr s) => bool_decide (is_Some (to_boolean s))
  | _ => false
  end.

Fixpoint first_error {A B} (convert : A → conversion B) (l : list A)
  : option parse_error :=
  match l with
  | [] => None
  | x :: l =>
      match convert x with
      | Converted _ => first_error convert l
      | Failed e => Some e
      end
  end.

Fixpoint is_infinite (x : pyfloat) : bool :=
  match x with
  | float_of_text s => bool_decide (lower s ∈ inf_words)
  | float_of_repr x => is_infinite x
  | float_literal _ | float_of_int _ => false
  end.

(** The scan of one word by [_column_has_float]: [Some true] at a decimal
    point and at an exponent mark after a digit, [Some false] at any other
    character that cannot be in a number, [None] at the end of a word of
    digits. *)
Fixpoint scan_float (found_first_digit : bool) (s : string) : option bool :=
  match s with
  | EmptyString => None
  | String a s' =>
      if bool_decide (a = "."%char) then Some true
      else if found_first_digit then
        if bool_decide (tolower_ascii a = "e"%char) then Some true
        else if isdigit_ascii a then scan_float true s'
        else Some false
      else
        if bool_decide (a ∈ [" "; "+"; "-"]%char) then scan_float false s'
        else if isdigit_ascii a then scan_float true s'
        else Some false
  end.

Definition word_has_float (f : cell) : option bool :=
  match f with
  | Some (PStr s) => scan_float false s
  | Some (PFloat x) => Some (negb (is_infinite x))
  | _ => Some false
  end.

(** [_column_has_float]: the answer of the first word that gives one. *)
Fixpoint column_has_float (words : list cell) : bool :=
  match words with
  | [] => false
  | f :: words =>
      match word_has_float f with
      | Some b => b
      | None => column_has_float words
      end
  end.

(** The types of a column; [object_as_is] is the object column whose
    fields are kept as they are, no marker being read as missing. *)
Inductive dtype : Type :=
  int64 | uint64 | float64 | bool_ | object | object_as_is.

#[global] Instance dtype_eq_decision : EqDecision dtype.
Proof. solve_decision. Defined.

(** The rest of the cast order, after the integers. *)
Definition infer_float_bool_object (words : list cell) : dtype :=
  if forallb word_to_double words then float64
  else if forallb word_to_boolean words then bool_
  else object.

(** The type of a column, from its fields: the first of int64, float64,
    bool, object whose converter takes every field that is not missing;
    the integer types are not tried when the column is seen to have a float.
    When the int64 converter overflows, the column is taken as uint64.  A
    column that overflows there too, or has a minus sign and no number
    above int64, is a column of strings ([OverflowError]); one that mixes a
    number above int64 with a minus sign or with a missing field is left as
    it is ([ValueError]: the markers are not looked for again). *)
Definition infer_dtype (col : list cell) : dtype :=
  let words := filter (λ f, na_field f = false) col in
  if column_has_float words then infer_float_bool_object words else
  match first_error word_to_int64 words with
  | None => int64
  | Some ERROR_OVERFLOW =>
      match first_error word_to_uint64 words with
      | Some ERROR_OVERFLOW => object
      | Some _ => infer_float_bool_object words
      | None =>
          let seen_uint w :=
            match word_to_uint64 w with
            | Converted (uint n) => bool_decide (INT64_MAX < n)%Z
            | _ => false
            end in
          let seen_sint w :=
            match word_to_uint64 w with
            | Converted seen_sint => true
            | _ => false
            end in
          if existsb seen_uint words
             && (existsb seen_sint words || existsb na_field col)
          then object_as_is
          else if existsb seen_sint words then object
          else uint64
      end
  | Some _ => infer_float_bool_object words
  end.

(** The entry a field becomes in a column of the given type; [upcast] is
    set for an int64 column with a missing field, which becomes float64. *)
Definition convert_with (dt : dtype) (upcast : bool) (f : cell) : cell :=
  if decide (dt = object_as_is) then
    match f with
    | None => Some (PStr "")
    | Some _ => f
    end
  else if na_field f then None
  else
    match dt, f with
    | int64, Some (PStr s) =>
        match str_to_int64 s with
        | Converted n =>
            Some (if upcast then PFloat (float_of_int n) else PInt n)
        | Failed _ => f
        end
    | uint64, Some (PStr s) =>
        match str_to_uint64 s with
        | Converted (uint n) => Some (PInt n)
        | _ => f
        end
    | float64, Some (PStr s) => Some (PFloat (float_of_text s))
    | float64, Some (PFloat x) => Some (PFloat (float_of_repr x))
    | bool_, Some (PStr s) =>
        match to_boolean s with
        | Some b => Some (PBool b)
        | None => f
        end
    | _, _ => f
    end.

(** The converter of a column. *)
Definition convert_column (col : list cell) : cell → cell :=
  convert_with (infer_dtype col) (existsb na_field col).

(** The row [pd.read_csv(path, names=names)] builds from the entries of one
    line: entry [i] under label [i]; a missing entry is NaN. *)
Definition row_of_fields (names : list string) (fields : list cell) : pydict :=
  omap (λ nc, (nc.1,.) <$> nc.2) (zip names fields).

(** Field [k] of a line; a line too short for it is filled with missing
    fields. *)
Definition field_at (k : nat) (fields : list cell) : cell :=
  csv_field (mjoin (fields !! k)).

(** [pd.read_csv(path, names=names)] on the lines of an existing file.
    Blank lines are skipped.  The table is as wide as the longer of [names]
    and the first line; a longer line is refused ([ValueError] stands for
    pandas' ParserError, a subclass of it), and when the table is wider than
    [names] its leading columns become the index and are not columns of the
    frame.  An empty file gives a frame without rows. *)
Definition read_csv_rows (names : list string) (file : csv) : result DataFrame :=
  let lines := filter (λ fields, fields ≠ []) file in
  let table_width := length names `max` default 0 (length <$> head lines) in
  if decide (Forall (λ fields, length fields ≤ table_width) lines) then
    let leading_cols := table_width - length names in
    let converters :=
      (λ j, convert_column (field_at (leading_cols + j) <$> lines))
        <$> seq 0 (length names) in
    Ok {| columns := names;
          rows := (λ fields,
                     row_of_fields names
                       (imap (λ j convert,
                                convert (field_at (leading_cols + j) fields))
                          converters))
                    <$> lines |}
  else Raise ValueError.

(** ** The two corpora *)

(** A line of [kcore_5.json] or [metadata.json]: the text of a record,
    kept as the dict it denotes; text that cannot be parsed; or, for
    [metadata.json], text that parses but is not a literal. *)
Inductive raw_line : Type :=
  | Line (d : pydict)
  | Malformed (text : string)
  | NotLiteral (text : string).

(** [ast.literal_eval(line)]. *)
Definition literal_eval (line : raw_line) : result pydict :=
  match line with
  | Line d => Ok d
  | Malformed _ => Raise SyntaxError
  | NotLiteral _ => Raise ValueError
  end.

(** The integers the JSON reader takes: from the least int64 to the
    greatest uint64. *)
Fixpoint json_numbers_ok (v : pyval) : bool :=
  match v with
  | PInt n => bool_decide (INT64_MIN ≤ n ≤ UINT64_MAX)%Z
  | PList l => forallb json_numbers_ok l
  | PDict d => forallb (λ kv, match kv with (_, v) => json_numbers_ok v end) d
  | _ => true
  end.

(** The JSON reader of [pd.read_json(..., lines=True)] on one line:
    [ValueError] for text it cannot parse and for an integer out of its
    range. *)
Definition json_loads (line : raw_line) : result pydict :=
  match line with
  | Line d => if json_numbers_ok (PDict d) then Ok d else Raise ValueError
  | Malformed _ | NotLiteral _ => Raise ValueError
  end.

(** The batches of a chunked reader: [chunksize] lines each, the last one
    shorter when the file does not divide evenly. *)
Fixpoint chunked {A} (chunksize : nat) (buf l : list A) : list (list A) :=
  match l with
  | [] => match buf with [] => [] | _ => [buf] end
  | x :: l =>
      if decide (length (buf ++ [x]) = chunksize)
      then (buf ++ [x]) :: chunked chunksize [] l
      else chunked chunksize (buf ++ [x]) l
  end.

(** ** The random generator *)

(** [np.random]: its state, [np.random.seed] and
    [RandomState.permutation], which shuffles [arange(n)]. *)
Record Generator : Type := mkGenerator {
  rng : Type;
  seed : Z → rng;
  permutation : rng → nat → list nat * rng;
  permutation_perm : ∀ g n, (permutation g n).1 ≡ₚ seq 0 n
}.

(** A generator to run the model on: the state counts the draws, and draw
    number [g] rotates [0 .. n-1] by [g]. *)
Program Definition rotating : Generator :=
  {| rng := nat;
     seed := Z.to_nat;
     permutation := λ g n, (rotate g (seq 0 n), S g) |}.
Next Obligation.
  intros g n. simpl. unfold rotate.
  rewrite Permutation_app_comm. by rewrite take_drop.
Qed.

(** ** The notebook *)

Definition kcore_5_compact_csv : string := "dataset/kcore_5_compact.csv".
Definition kcore_5_compact_sample_csv : string :=
  "dataset/kcore_5_compact_sample.csv".
Definition metadata_sample_csv : string := "dataset/metadata_sample.csv".

(** The random seed of cell 7. *)
Definition randomSeed : Z := 47.

Definition review_names : list string := ["reviewerID"; "asin"; "overall"].
Definition review_dropped : list string :=
  ["reviewerName"; "helpful"; "reviewText"; "summary"; "unixReviewTime";
   "reviewTime"].
Definition metadata_popped : list string :=
  ["imUrl"; "price"; "salesRank"; "brand"].
Definition metadata_names : list string :=
  ["asin"; "categories"; "title"; "description"; "related"].

Inductive write_mode : Type := Append | Truncate.

Section Notebook.
Context (G : Generator).

(** What a cell can read and change: the two corpora, the artifacts
    under [dataset/] (a path with no entry does not exist) and the
    global generator. *)
Record world : Type := mkWorld {
  kcore_5_json : list raw_line;
  metadata_json : list raw_line;
  files : gmap string csv;
  np_random : rng G
}.

Definition with_files (f : gmap string csv) (w : world) : world :=
  {| kcore_5_json := kcore_5_json w; metadata_json := metadata_json w;
     files := f; np_random := np_random w |}.

Definition with_np_random (g : rng G) (w : world) : world :=
  {| kcore_5_json := kcore_5_json w; metadata_json := metadata_json w;
     files := files w; np_random := g |}.

(** A computation of a cell: it ends with a value or an exception, and
    the world it leaves is kept in both cases. *)
Definition M (A : Type) : Type := world → result A * world.

#[global] Instance M_ret : MRet M := λ A a w, (Ok a, w).
#[global] Instance M_bind : MBind M := λ A B k m w,
  match m w with
  | (Ok a, w') => k a w'
  | (Raise e, w') => (Raise e, w')
  end.

Definition raise {A} (e : exn) : M A := λ w, (Raise e, w).
Definition lift {A} (r : result A) : M A := λ w, (r, w).

Fixpoint for_each {A} (body : A → M unit) (l : list A) : M unit :=
  match l with
  | [] => mret ()
  | x :: l => body x;; for_each body l
  end.

(** [os.path.exists(path)]. *)
Definition os_path_exists (path : string) : M bool :=
  λ w, (Ok (bool_decide (is_Some (files w !! path))), w).

(** [df.to_csv(path, mode=..., header=False, index=False)]: mode ['a']
    creates the file when it is missing and adds the lines at its end,
    the default mode replaces the file. *)
Definition to_csv (df : DataFrame) (path : string) (mode : write_mode) : M unit :=
  λ w,
    let old := match mode with
               | Append => default [] (files w !! path)
               | Truncate => []
               end in
    (Ok (), with_files (<[path := old ++ to_csv_rows df]> (files w)) w).

(** [pd.read_csv(path, names=names)]. *)
Definition read_csv (path : string) (names : list string) : M DataFrame :=
  λ w,
    match files w !! path with
    | None => (Raise FileNotFoundError, w)
    | Some file => (read_csv_rows names file, w)
    end.

(** [np.random.seed(s)]. *)
Definition np_random_seed (s : Z) : M unit :=
  λ w, (Ok (), with_np_random (seed G s) w).

(** [np.random.choice(a, size, replace=False)] for an integer [a]:
    [ValueError] when the sample is larger than the population, else the
    first [size] entries of [permutation(a)]. *)
Definition np_random_choice (a size : nat) : M (list nat) :=
  λ w,
    if decide (a < size) then (Raise ValueError, w)
    else
      let '(p, g) := permutation G (np_random w) a in
      (Ok (take size p), with_np_random g w).

(** *** Cell 8: the compactor *)

Fixpoint parse_lines (parse : raw_line → result pydict) (lines : list raw_line)
  : result (list pydict) :=
  match lines with
  | [] => Ok []
  | line :: lines =>
      match parse line with
      | Raise e => Raise e
      | Ok d =>
          match parse_lines parse lines with
          | Raise e => Raise e
          | Ok ds => Ok (d :: ds)
          end
      end
  end.

(** The body of the loop over the chunks of [pd.read_json]. *)
Definition compact_chunk (lines : list raw_line) : M unit :=
  data ← lift (parse_lines json_loads lines);
  chunk ← lift (drop_columns (from_dict data) review_dropped);
  to_csv chunk kcore_5_compact_csv Append.

(** [nchunks = math.ceil(nrows_og_file / CHUNK_SIZE)] only feeds the
    progress bar, but the division raises when [CHUNK_SIZE] is zero. *)
Definition cell_8 (CHUNK_SIZE : nat) : M unit :=
  present ← os_path_exists kcore_5_compact_csv;
  if (present : bool) then mret ()
  else if decide (CHUNK_SIZE = 0) then raise ZeroDivisionError
  else λ w, for_each compact_chunk (chunked CHUNK_SIZE [] (kcore_5_json w)) w.

(** *** Cell 13: the user sampler and the review filter *)

(** [a[idx]] for an array of positions: [IndexError] out of range. *)
Fixpoint take_positions {A} (a : list A) (idx : list nat) : result (list A) :=
  match idx with
  | [] => Ok []
  | i :: idx =>
      match a !! i with
      | None => Raise IndexError
      | Some x =>
          match take_positions a idx with
          | Raise e => Raise e
          | Ok xs => Ok (x :: xs)
          end
      end
  end.

(** [unique_users] and [unique_users[user_sample]]: the cohort. *)
Definition user_cohort (USER_SAMPLES : nat) (kcore_5_compact : DataFrame)
  : M (list cell) :=
  reviewerID ← lift (getitem kcore_5_compact "reviewerID");
  let unique_users := unique reviewerID in
  user_sample ← np_random_choice (length unique_users) USER_SAMPLES;
  lift (take_positions unique_users user_sample).

(** The rows of [kcore_5_compact] whose reviewer is in the cohort. *)
Definition review_filter (kcore_5_compact : DataFrame) (cohort : list cell)
  : M DataFrame :=
  reviewerID ← lift (getitem kcore_5_compact "reviewerID");
  mret (getitem_mask kcore_5_compact (isin reviewerID cohort)).

Definition cell_13 (USER_SAMPLES : nat) (kcore_5_compact : DataFrame) : M unit :=
  present ← os_path_exists kcore_5_compact_sample_csv;
  if (present : bool) then mret ()
  else
    cohort ← user_cohort USER_SAMPLES kcore_5_compact;
    kcore_5_compact_sample ← review_filter kcore_5_compact cohort;
    to_csv kcore_5_compact_sample kcore_5_compact_sample_csv Append.

(** *** Cell 16: the metadata join filter *)

(** [[line.pop(key, None) for key in [...]]]. *)
Definition pop_keys (ks : list string) (line : pydict) : pydict :=
  foldl (λ d k, dict_pop k d) line ks.

(** The statements under [if len(data) == CHUNK_SIZE:]; the value is the
    number of rows written. *)
Definition flush_chunk (kcore_5_compact_sample : DataFrame) (data : list pydict)
  : M nat :=
  let chunk := from_dict data in
  asin ← lift (getitem chunk "asin");
  sampled ← lift (getitem kcore_5_compact_sample "asin");
  let chunk := getitem_mask chunk (isin asin sampled) in
  chunk ← lift (getitem_list chunk metadata_names);
  to_csv chunk metadata_sample_csv Append;;
  mret (length (rows chunk)).

(** The loop over the lines of [metadata.json], from the values of
    [data] and [total_sampled_rows] at its head; the value is
    [total_sampled_rows] when the file is exhausted. *)
Fixpoint metadata_loop (CHUNK_SIZE : nat) (kcore_5_compact_sample : DataFrame)
    (f : list raw_line) (data : list pydict) (total_sampled_rows : nat)
  : M nat :=
  match f with
  | [] => mret total_sampled_rows
  | line :: f =>
      line ← lift (literal_eval line);
      let line := pop_keys metadata_popped line in
      let data := data ++ [line] in
      if decide (length data = CHUNK_SIZE) then
        n ← flush_chunk kcore_5_compact_sample data;
        metadata_loop CHUNK_SIZE kcore_5_compact_sample f []
          (total_sampled_rows + n)
      else
        metadata_loop CHUNK_SIZE kcore_5_compact_sample f data
          total_sampled_rows
  end.

Definition cell_16 (CHUNK_SIZE : nat) (kcore_5_compact_sample : DataFrame)
  : M unit :=
  present ← os_path_exists metadata_sample_csv;
  if (present : bool) then mret ()
  else
    λ w, (metadata_loop CHUNK_SIZE kcore_5_compact_sample (metadata_json w)
            [] 0 ≫= λ _, mret ()) w.

(** *** Cell 19: the quality filter *)

Definition cell_19 (meta : DataFrame) : M DataFrame :=
  meta ← lift (dropna meta ["categories"; "title"]);
  to_csv meta metadata_sample_csv Truncate;;
  mret meta.

(** *** The cells in notebook order *)

Definition cell_10 : M DataFrame := read_csv kcore_5_compact_csv review_names.
Definition cell_14 : M DataFrame :=
  read_csv kcore_5_compact_sample_csv review_names.
Definition cell_17 : M DataFrame := read_csv metadata_sample_csv metadata_names.

(** Cells 7 to 14: the compacted corpus and the sampled reviews. *)
Definition review_stages (CHUNK_SIZE USER_SAMPLES : nat) : M DataFrame :=
  np_random_seed randomSeed;;
  cell_8 CHUNK_SIZE;;
  kcore_5_compact ← cell_10;
  cell_13 USER_SAMPLES kcore_5_compact;;
  cell_14.

(** Cells 17 and 19: the quality filter loads the reduced metadata,
    drops the incomplete records and replaces the artifact. *)
Definition quality_filter : M DataFrame :=
  meta ← cell_17;
  cell_19 meta.

(** Cells 16 to 19: the metadata extract. *)
Definition metadata_stages (CHUNK_SIZE : nat) (kcore_5_compact_sample : DataFrame)
  : M DataFrame :=
  cell_16 CHUNK_SIZE kcore_5_compact_sample;;
  quality_filter.

Definition run_all (CHUNK_SIZE USER_SAMPLES : nat) : M DataFrame :=
  kcore_5_compact_sample ← review_stages CHUNK_SIZE USER_SAMPLES;
  metadata_stages CHUNK_SIZE kcore_5_compact_sample.

End Notebook.

Arguments mkWorld {G}.
Arguments kcore_5_json {G}.
Arguments metadata_json {G}.
Arguments files {G}.
Arguments np_random {G}.

(** ** A scenario to run the notebook on *)

Module Scenario.

(** A line of [kcore_5.json] with the nine fields of the corpus. *)
Definition review (reviewer product : string) (stars : Z) : raw_line :=
  Line [("reviewerID", PStr reviewer); ("asin", PStr product);
        ("reviewerName", PStr "J. Doe"); ("helpful", PList [PInt 0; PInt 0]);
        ("reviewText", PStr "text"); ("overall", PInt stars);
        ("summary", PStr "summary"); ("unixReviewTime", PInt 1252800000);
        ("reviewTime", PStr "09 13, 2009")].

(** A line of [metadata.json] with the nine fields of the corpus. *)
Definition product (asin : string) (categories title : pyval) : raw_line :=
  Line [("asin", PStr asin); ("title", title); ("price", PInt 3);
        ("imUrl", PStr "http://"); ("related", PDict [("also_bought", PList [])]);
        ("salesRank", PDict []); ("brand", PStr "brand");
        ("categories", categories); ("description", PStr "description")].

Definition books : pyval := PList [PList [PStr "Books"]].

(** Twelve reviews by five reviewers, in order of first appearance
    [A1], [A2], [A3], [A4], [A5]. *)
Definition reviews : list raw_line :=
  [review "A1" "B1" 5; review "A2" "B1" 4; review "A1" "B2" 3;
   review "A3" "B3" 3; review "A4" "B4" 1; review "A2" "B2" 5;
   review "A5" "B5" 2; review "A3" "B1" 4; review "A4" "B5" 5;
   review "A5" "B3" 1; review "A1" "B6" 2; review "A3" "B4" 4].

(** Five products; [B7] is reviewed by nobody and [B3] has no title. *)
Definition products_corpus : list raw_line :=
  [product "B1" books (PStr "T1"); product "B7" books (PStr "T7");
   product "B3" books PNone; product "B4" books (PStr "T4");
   product "B5" books (PStr "T5")].

(** Before the first run: the two corpora and no artifact. *)
Definition fresh : world rotating :=
  @mkWorld rotating reviews products_corpus ∅ (0 : nat).

(** A row of the compacted corpus as cell 10 reads it back. *)
Definition rating (reviewer product : string) (stars : Z) : pydict :=
  [("reviewerID", PStr reviewer); ("asin", PStr product); ("overall", PInt stars)].

(** [kcore_5_compact] after cell 10. *)
Definition compacted : DataFrame :=
  {| columns := review_names;
     rows := [rating "A1" "B1" 5; rating "A2" "B1" 4; rating "A1" "B2" 3;
              rating "A3" "B3" 3; rating "A4" "B4" 1; rating "A2" "B2" 5;
              rating "A5" "B5" 2; rating "A3" "B1" 4; rating "A4" "B5" 5;
              rating "A5" "B3" 1; rating "A1" "B6" 2; rating "A3" "B4" 4] |}.

(** The cohort of three users the rotating generator draws after cell 7:
    positions 2, 3 and 4 of the five reviewers. *)
Definition cohort : list cell :=
  [Some (PStr "A3"); Some (PStr "A4"); Some (PStr "A5")].

(** [kcore_5_compact_sample] after cell 14, for three users. *)
Definition sampled : DataFrame :=
  {| columns := review_names;
     rows := [rating "A3" "B3" 3; rating "A4" "B4" 1; rating "A5" "B5" 2;
              rating "A3" "B1" 4; rating "A4" "B5" 5; rating "A5" "B3" 1;
              rating "A3" "B4" 4] |}.

(** The world once cell 7 has run. *)
Definition seeded : world rotating :=
  @mkWorld rotating reviews products_corpus ∅ (Z.to_nat randomSeed).

(** Two worlds that hold the same compacted corpus and differ in the
    rest: the corpora and the state of the generator. *)
Definition compacted_here : world rotating :=
  @mkWorld rotating reviews products_corpus
    {[ kcore_5_compact_csv := to_csv_rows compacted ]} (0 : nat).

Definition compacted_there : world rotating :=
  @mkWorld rotating [] []
    {[ kcore_5_compact_csv := to_csv_rows compacted ]} (5 : nat).




(** A product of the corpus that carries neither description nor
    related products, and a review whose reviewer left no name. *)
Definition bare_product (asin : string) : raw_line :=
  Line [("asin", PStr asin); ("title", PStr "T"); ("price", PInt 3);
        ("categories", books)].

Definition anonymous_review (reviewer product : string) (stars : Z) : raw_line :=
  Line [("reviewerID", PStr reviewer); ("asin", PStr product);
        ("helpful", PList [PInt 0; PInt 0]); ("reviewText", PStr "text");
        ("overall", PInt stars); ("summary", PStr "summary");
        ("unixReviewTime", PInt 1252800000); ("reviewTime", PStr "09 13, 2009")].

(** The line of the metadata extract for a complete product. *)
Definition extract_line (asin title : string) : list cell :=
  [Some (PStr asin); Some books; Some (PStr title);
   Some (PStr "description"); Some (PDict [("also_bought", PList [])])].

End Scenario.

(** The [reviewerID] column of a frame that has one. *)
Definition reviewers (df : DataFrame) : list cell :=
  (λ r, dict_get r "reviewerID") <$> rows df.

(** [x] with [a] and [b] exchanged. *)
Definition exchange {A} `{EqDecision A} (a b x : A) : A :=
  if decide (x = a) then b else if decide (x = b) then a else x.

(** The reviews of a corpus put in another order: grouped by reviewer, the
    reviewers in the given order. *)
Definition regroup (df : DataFrame) (order : list cell) : DataFrame :=
  {| columns := columns df;
     rows := order ≫= λ u, filter (λ r, dict_get r "reviewerID" = u) (rows df) |}.

(** The [asin] column of a frame that has one. *)
Definition products (df : DataFrame) : list cell :=
  (λ r, dict_get r "asin") <$> rows df.

(** A record of the reduced metadata is complete when its categories and
    its title are both present. *)
Definition complete (r : pydict) : Prop :=
  isna (dict_get r "categories") = false ∧ isna (dict_get r "title") = false.

#[global] Instance complete_dec r : Decision (complete r).
Proof. unfold complete. apply _. Defined.

(** The records of the lines of a corpus that parse. *)
Definition records_of (lines : list raw_line) : list pydict :=
  omap (λ line, match line with Line d => Some d | _ => None end) lines.

(** ** The counts of the inspection cells *)


(** ** Lines of an artifact *)

(** A field that [pd.read_csv] does not read as missing. *)
Definition filled (j : nat) (fields : list cell) : Prop :=
  na_field (field_at j fields) = false.

#[global] Instance filled_dec j fields : Decision (filled j fields).
Proof. unfold filled. apply _. Defined.


(** The field holds an integer that does not fit int64. *)
Definition overflows (f : cell) : Prop :=
  word_to_int64 f = Failed ERROR_OVERFLOW.

#[global] Instance overflows_dec f : Decision (overflows f).
Proof. unfold overflows. apply _. Defined.

(** A reduced metadata artifact the quality filter reads line by line: no
    line is blank or has more than the five fields, and neither the
    categories nor the title of a line is an integer that does not fit
    int64. *)
Definition metadata_lines (file : csv) : Prop :=
  Forall (λ fields,
            0 < length fields ≤ length metadata_names ∧
            ¬ overflows (field_at 1 fields) ∧ ¬ overflows (field_at 2 fields))
    file.

#[global] Instance metadata_lines_dec file : Decision (metadata_lines file).
Proof. unfold metadata_lines. apply _. Defined.

(** A text of digits. *)
Fixpoint digits_only (s : string) : bool :=
  match s with
  | EmptyString => true
  | String a s => isdigit_ascii a && digits_only s
  end.

(** A text of digits and minus signs. *)
Fixpoint numeral (s : string) : bool :=
  match s with
  | EmptyString => true
  | String a s => (isdigit_ascii a || bool_decide (a = "-"%char)) && numeral s
  end.

(** ** What a cell leaves alone *)

(** [w'] differs from [w] at most in the file [path] and in the state of
    the generator. *)
Definition touches_only {G} (path : string) (w w' : world G) : Prop :=
  kcore_5_json w' = kcore_5_json w ∧
  metadata_json w' = metadata_json w ∧
  ∀ p, p ≠ path → files w' !! p = files w !! p.

(** * Properties *)

(** ** Lists, masks and positions *)

Section list_facts.
Context {A : Type} `{EqDecision A}.
Implicit Types (l seen : list A) (x : A).

Lemma elem_of_unique_from seen l x :
  x ∈ unique_from seen l ↔ x ∈ l ∧ x ∉ seen.
Proof.
  revert seen. induction l as [|y l IH]; intros seen; simpl.
  - split; [by intros ?%elem_of_nil | by intros [?%elem_of_nil _]].
  - destruct (decide (y ∈ seen)) as [Hy|Hy].
    + rewrite IH, elem_of_cons. naive_solver.
    + rewrite !elem_of_cons, IH, elem_of_cons.
      destruct (decide (x = y)) as [->|Hxy]; naive_solver.
Qed.

Lemma NoDup_unique_from seen l : NoDup (unique_from seen l).
Proof.
  revert seen. induction l as [|y l IH]; intros seen; simpl.
  - constructor.
  - destruct (decide (y ∈ seen)); [done|].
    constructor; [|done].
    rewrite elem_of_unique_from, elem_of_cons. naive_solver.
Qed.

Lemma elem_of_unique l x : x ∈ unique l ↔ x ∈ l.
Proof.
  unfold unique. rewrite elem_of_unique_from.
  split; [by intros [? _] | intros ?; split; [done | apply not_elem_of_nil]].
Qed.

Lemma NoDup_unique l : NoDup (unique l).
Proof. apply NoDup_unique_from. Qed.

Lemma mask_rows_fmap (P : A → Prop) `{∀ x, Decision (P x)} l :
  mask_rows l ((λ x, bool_decide (P x)) <$> l) = filter P l.
Proof.
  induction l as [|x l IH]; [done|]. csimpl.
  rewrite filter_cons, IH. by destruct (decide (P x)) as [HP|HP];
    [rewrite bool_decide_eq_true_2 | rewrite bool_decide_eq_false_2].
Qed.

Lemma take_positions_ok (a : list A) (idx : list nat) :
  Forall (λ i, i < length a) idx →
  ∃ xs, take_positions a idx = Ok xs ∧ Forall2 (λ i x, a !! i = Some x) idx xs.
Proof.
  induction 1 as [|i idx Hi _ [xs [IH1 IH2]]]; simpl.
  - eexists; split; [done | constructor].
  - destruct (lookup_lt_is_Some_2 a i Hi) as [x Hx].
    rewrite Hx, IH1. eexists; split; [done | by constructor].
Qed.

Lemma positions_NoDup (a : list A) (idx : list nat) (xs : list A) :
  NoDup a → NoDup idx →
  Forall2 (λ i x, a !! i = Some x) idx xs → NoDup xs.
Proof.
  intros Ha Hidx HF. induction HF as [|i x idx xs Hix HF IH]; [constructor|].
  apply NoDup_cons in Hidx as [Hi Hidx]. constructor; [|by apply IH].
  intros Hx. apply Hi.
  clear IH Hidx Hi. induction HF as [|j y idx xs Hjy HF IH]; [by apply elem_of_nil in Hx|].
  apply elem_of_cons in Hx as [->|Hx].
  - rewrite (NoDup_lookup a i j y Ha Hix Hjy). by left.
  - right. by apply IH.
Qed.

Lemma positions_elem_of (a : list A) (idx : list nat) (xs : list A) x :
  Forall2 (λ i x, a !! i = Some x) idx xs →
  x ∈ xs ↔ ∃ i, i ∈ idx ∧ a !! i = Some x.
Proof.
  induction 1 as [|i y idx xs Hiy HF IH].
  - split; [by intros ?%elem_of_nil | by intros (? & ?%elem_of_nil & _)].
  - rewrite elem_of_cons, IH. split.
    + intros [->|(j & Hj & Hx)]; [exists i | exists j]; split; auto; by constructor.
    + intros (j & [->|Hj]%elem_of_cons & Hx); [left; congruence | right; eauto].
Qed.
End list_facts.

(** ** The cells *)

(** Unfolds the monad of the cells. *)
Ltac unfold_M :=
  unfold mbind, M_bind, mret, M_ret, lift, raise, os_path_exists in *.

Section cells.
Context (G : Generator).
Implicit Types (w : world G) (df : DataFrame).

Lemma permutation_spec (g : rng G) (n size : nat) :
  size ≤ n →
  let idx := take size (permutation G g n).1 in
  length idx = size ∧ NoDup idx ∧ Forall (λ i, i < n) idx.
Proof.
  intros Hle idx. pose proof (permutation_perm G g n) as Hp.
  assert (Hlen : length (permutation G g n).1 = n)
    by (by rewrite Hp, length_seq).
  split_and!.
  - subst idx. rewrite length_take. lia.
  - subst idx. eapply sublist_NoDup; [|apply sublist_take].
    rewrite Hp. apply NoDup_seq.
  - apply Forall_forall. intros i Hi.
    assert (i ∈ (permutation G g n).1) as Hi'
      by (eapply elem_of_sublist; [exact Hi | apply sublist_take]).
    rewrite Hp in Hi'. apply elem_of_seq in Hi'. lia.
Qed.

Lemma user_cohort_unfold USER_SAMPLES df w :
  user_cohort G USER_SAMPLES df w =
    if decide ("reviewerID" ∈ columns df) then
      let unique_users := unique (reviewers df) in
      if decide (length unique_users < USER_SAMPLES) then (Raise ValueError, w)
      else
        let p := permutation G (np_random w) (length unique_users) in
        (take_positions unique_users (take USER_SAMPLES p.1),
         with_np_random G p.2 w)
    else (Raise KeyError, w).
Proof.
  unfold user_cohort, getitem, np_random_choice, reviewers. unfold_M.
  destruct (decide ("reviewerID" ∈ columns df)); [|done]. simpl.
  destruct (decide (_ < USER_SAMPLES)); [done|].
  by destruct (permutation G _ _) as [p g].
Qed.

(** The generator state apart, drawing the cohort changes nothing. *)
Lemma user_cohort_files USER_SAMPLES df w :
  files (user_cohort G USER_SAMPLES df w).2 = files w.
Proof.
  rewrite user_cohort_unfold. cbv zeta. by repeat case_decide.
Qed.

Lemma user_cohort_ok USER_SAMPLES df w :
  "reviewerID" ∈ columns df →
  USER_SAMPLES ≤ length (unique (reviewers df)) →
  ∃ cohort,
    user_cohort G USER_SAMPLES df w
      = (Ok cohort,
         with_np_random G
           (permutation G (np_random w) (length (unique (reviewers df)))).2 w) ∧
    Forall2 (λ i x, unique (reviewers df) !! i = Some x)
      (take USER_SAMPLES
         (permutation G (np_random w) (length (unique (reviewers df)))).1)
      cohort.
Proof.
  intros Hcol Hle. rewrite user_cohort_unfold.
  rewrite decide_True by done. simpl. rewrite decide_False by lia.
  destruct (permutation_spec (np_random w) _ _ Hle) as (_ & _ & Hlt).
  destruct (take_positions_ok (unique (reviewers df)) _ Hlt) as (xs & -> & HF).
  by exists xs.
Qed.

Lemma user_cohort_inv USER_SAMPLES df w w' cohort :
  user_cohort G USER_SAMPLES df w = (Ok cohort, w') →
  "reviewerID" ∈ columns df ∧
  USER_SAMPLES ≤ length (unique (reviewers df)) ∧
  Forall2 (λ i x, unique (reviewers df) !! i = Some x)
    (take USER_SAMPLES
       (permutation G (np_random w) (length (unique (reviewers df)))).1)
    cohort.
Proof.
  intros Hrun.
  destruct (decide ("reviewerID" ∈ columns df)) as [Hcol|Hcol];
    [|by rewrite user_cohort_unfold, decide_False in Hrun].
  destruct (decide (USER_SAMPLES ≤ length (unique (reviewers df)))) as [Hle|Hgt].
  - destruct (user_cohort_ok USER_SAMPLES df w Hcol Hle) as (xs & Hxs & HF).
    rewrite Hxs in Hrun. by simplify_eq.
  - rewrite user_cohort_unfold, decide_True in Hrun by done. simpl in Hrun.
    by rewrite decide_True in Hrun by lia.
Qed.

Lemma review_filter_unfold df cohort w :
  "reviewerID" ∈ columns df →
  review_filter G df cohort w =
    (Ok {| columns := columns df;
           rows := filter (λ r, dict_get r "reviewerID" ∈ cohort) (rows df) |}, w).
Proof.
  intros Hcol. unfold review_filter, getitem, getitem_mask, isin. unfold_M.
  rewrite decide_True by done. simpl. rewrite <-list_fmap_compose.
  by rewrite <-(mask_rows_fmap (λ r, dict_get r "reviewerID" ∈ cohort)).
Qed.
End cells.

Section sampling.
Context (G : Generator).
Implicit Types (w : world G) (df : DataFrame).

Lemma cell_13_skip USER_SAMPLES df w :
  is_Some (files w !! kcore_5_compact_sample_csv) →
  cell_13 G USER_SAMPLES df w = (Ok (), w).
Proof.
  intros Hex. unfold cell_13. unfold_M.
  by rewrite bool_decide_eq_true_2.
Qed.

Lemma cell_13_run USER_SAMPLES df w :
  files w !! kcore_5_compact_sample_csv = None →
  cell_13 G USER_SAMPLES df w =
    match user_cohort G USER_SAMPLES df w with
    | (Ok cohort, w') =>
        (Ok (),
         with_files G
           (<[kcore_5_compact_sample_csv :=
                to_csv_rows
                  {| columns := columns df;
                     rows := filter (λ r, dict_get r "reviewerID" ∈ cohort)
                               (rows df) |}]> (files w')) w')
    | (Raise e, w') => (Raise e, w')
    end.
Proof.
  intros Hno. unfold cell_13. unfold_M.
  rewrite bool_decide_eq_false_2 by (rewrite Hno; by intros [? ?]).
  destruct (user_cohort G USER_SAMPLES df w) as [[cohort|e] w'] eqn:Hc; [|done].
  destruct (user_cohort_inv G _ _ _ _ _ Hc) as (Hcol & _).
  rewrite review_filter_unfold by done. unfold to_csv.
  pose proof (user_cohort_files G USER_SAMPLES df w) as Hf.
  rewrite Hc in Hf. simpl in Hf.
  by rewrite Hf, Hno.
Qed.

(** C2: when the compacted corpus has at least [USER_SAMPLES] distinct
    reviewers, the sampler returns exactly [USER_SAMPLES] of them, without
    repetition and without touching any file; when it has fewer, cell 13
    raises [ValueError] (the insufficient-population error) and leaves the
    world as it was, so no sampling artifact is written. *)
Theorem C2_cohort_size USER_SAMPLES df w :
  "reviewerID" ∈ columns df →
  (USER_SAMPLES ≤ length (unique (reviewers df)) →
     ∃ cohort w',
       user_cohort G USER_SAMPLES df w = (Ok cohort, w') ∧
       files w' = files w ∧
       length cohort = USER_SAMPLES ∧ NoDup cohort ∧
       cohort ⊆ reviewers df) ∧
  (length (unique (reviewers df)) < USER_SAMPLES →
     files w !! kcore_5_compact_sample_csv = None →
     cell_13 G USER_SAMPLES df w = (Raise ValueError, w)).
Proof.
  intros Hcol. split.
  - intros Hle.
    destruct (user_cohort_ok G USER_SAMPLES df w Hcol Hle) as (cohort & Hrun & HF).
    destruct (permutation_spec G (np_random w) _ _ Hle) as (Hlen & Hnd & _).
    eexists _, _. split; [exact Hrun|]. split_and!.
    + done.
    + by rewrite <-(Forall2_length _ _ _ HF).
    + eapply positions_NoDup; [apply NoDup_unique | exact Hnd | exact HF].
    + intros u Hu. apply (positions_elem_of _ _ _ _ HF) in Hu as (i & _ & Hi).
      apply elem_of_unique. by eapply list_elem_of_lookup_2.
  - intros Hlt Hno. rewrite cell_13_run by done.
    rewrite user_cohort_unfold, decide_True by done. simpl.
    by rewrite decide_True by done.
Qed.

(** C3: for a cohort drawn from the compacted corpus, the sampled review
    set is the rows of the corpus whose reviewer is in the cohort, in their
    original order; every row of it has its reviewer in the cohort, and the
    reviewers that occur in it are exactly the cohort.  It is what cell 13
    writes to the sampling artifact. *)
Theorem C3_sampled_reviews USER_SAMPLES df w w' cohort :
  user_cohort G USER_SAMPLES df w = (Ok cohort, w') →
  ∃ sample,
    review_filter G df cohort w' = (Ok sample, w') ∧
    rows sample = filter (λ r, dict_get r "reviewerID" ∈ cohort) (rows df) ∧
    (∀ r, r ∈ rows sample → dict_get r "reviewerID" ∈ cohort) ∧
    rows sample `sublist_of` rows df ∧
    (∀ u, u ∈ cohort ↔ u ∈ reviewers sample) ∧
    (files w !! kcore_5_compact_sample_csv = None →
     cell_13 G USER_SAMPLES df w =
       (Ok (), with_files G
                 (<[kcore_5_compact_sample_csv := to_csv_rows sample]> (files w'))
                 w')).
Proof.
  intros Hrun.
  destruct (user_cohort_inv G _ _ _ _ _ Hrun) as (Hcol & Hle & HF).
  eexists. split; [by apply review_filter_unfold|]. simpl. split_and!.
  - done.
  - by intros r [? _]%list_elem_of_filter.
  - apply sublist_filter.
  - intros u. unfold reviewers. simpl. rewrite list_elem_of_fmap. split.
    + intros Hu.
      assert (u ∈ reviewers df) as (r & -> & Hr)%list_elem_of_fmap.
      { apply (positions_elem_of _ _ _ _ HF) in Hu as (i & _ & Hi).
        apply elem_of_unique. by eapply list_elem_of_lookup_2. }
      exists r. split; [done|]. by apply list_elem_of_filter.
    + by intros (r & -> & [? _]%list_elem_of_filter).
  - intros Hno. by rewrite cell_13_run, Hrun.
Qed.
End sampling.

Section determinism.
Context (G : Generator).
Implicit Types (w : world G) (df : DataFrame).

Lemma cell_8_skip CHUNK_SIZE w :
  is_Some (files w !! kcore_5_compact_csv) →
  cell_8 G CHUNK_SIZE w = (Ok (), w).
Proof.
  intros Hex. unfold cell_8. unfold_M.
  by rewrite bool_decide_eq_true_2.
Qed.

(** Cells 7 to 14 over an existing compacted corpus and no sampling
    artifact, in closed form. *)
Lemma review_stages_unfold CHUNK_SIZE USER_SAMPLES w corpus :
  files w !! kcore_5_compact_csv = Some corpus →
  files w !! kcore_5_compact_sample_csv = None →
  review_stages G CHUNK_SIZE USER_SAMPLES w =
    let w7 := with_np_random G (seed G randomSeed) w in
    match read_csv_rows review_names corpus with
    | Raise e => (Raise e, w7)
    | Ok df =>
        match user_cohort G USER_SAMPLES df w7 with
        | (Raise e, w') => (Raise e, w')
        | (Ok cohort, w') =>
            let sample :=
              to_csv_rows
                {| columns := columns df;
                   rows := filter (λ r, dict_get r "reviewerID" ∈ cohort)
                             (rows df) |} in
            (read_csv_rows review_names sample,
             with_files G (<[kcore_5_compact_sample_csv := sample]> (files w))
               (with_np_random G (np_random w') w))
        end
    end.
Proof.
  intros Hc Hs. unfold review_stages, np_random_seed.
  unfold mbind at 1, M_bind at 1. unfold mbind at 1, M_bind at 1.
  rewrite cell_8_skip by (simpl; by rewrite Hc).
  unfold mbind at 1, M_bind at 1. unfold cell_10, read_csv at 1. simpl.
  rewrite Hc. destruct (read_csv_rows review_names corpus) as [df|e]; [|done].
  unfold mbind at 1, M_bind at 1. rewrite cell_13_run by done.
  set (w7 := with_np_random G (seed G randomSeed) w).
  pose proof (user_cohort_files G USER_SAMPLES df w7) as Hf.
  pose proof (user_cohort_unfold G USER_SAMPLES df w7) as Hu.
  destruct (user_cohort G USER_SAMPLES df w7) as [[cohort|e] w'] eqn:Hrun;
    [|done].
  simpl in Hf. unfold cell_14, read_csv. simpl.
  rewrite lookup_insert_eq, Hf.
  do 2 f_equal. cbv zeta in Hu. repeat case_decide; simplify_eq; done.
Qed.

(** C1: once the generator is seeded, with any seed, the cohort drawn from
    a compacted corpus is the same in any two worlds, whatever the generator
    state, the files and the corpora they started with; and two runs of
    cells 7 to 14 (seed 47) over the same compacted corpus, with no sampling
    artifact yet and any chunk sizes, end with the same outcome, the same
    sampling artifact and the same generator state. *)
Theorem C1_sampler_deterministic CHUNK_SIZE CHUNK_SIZE' USER_SAMPLES (w1 w2 : world G) corpus :
  files w1 !! kcore_5_compact_csv = Some corpus →
  files w2 !! kcore_5_compact_csv = Some corpus →
  files w1 !! kcore_5_compact_sample_csv = None →
  files w2 !! kcore_5_compact_sample_csv = None →
  (∀ s df,
     (user_cohort G USER_SAMPLES df (np_random_seed G s w1).2).1
     = (user_cohort G USER_SAMPLES df (np_random_seed G s w2).2).1) ∧
  (review_stages G CHUNK_SIZE USER_SAMPLES w1).1
    = (review_stages G CHUNK_SIZE' USER_SAMPLES w2).1 ∧
  files (review_stages G CHUNK_SIZE USER_SAMPLES w1).2 !! kcore_5_compact_sample_csv
    = files (review_stages G CHUNK_SIZE' USER_SAMPLES w2).2 !! kcore_5_compact_sample_csv ∧
  np_random (review_stages G CHUNK_SIZE USER_SAMPLES w1).2
    = np_random (review_stages G CHUNK_SIZE' USER_SAMPLES w2).2.
Proof.
  intros Hc1 Hc2 Hs1 Hs2.
  assert (Hcohort : ∀ s df,
     (user_cohort G USER_SAMPLES df (with_np_random G (seed G s) w1)).1
     = (user_cohort G USER_SAMPLES df (with_np_random G (seed G s) w2)).1
     ∧ np_random (user_cohort G USER_SAMPLES df
                    (with_np_random G (seed G s) w1)).2
     = np_random (user_cohort G USER_SAMPLES df
                    (with_np_random G (seed G s) w2)).2).
  { intros s df. rewrite !user_cohort_unfold. cbv zeta.
    repeat case_decide; done. }
  split; [intros s df; apply Hcohort|].
  rewrite (review_stages_unfold CHUNK_SIZE USER_SAMPLES w1 corpus) by done.
  rewrite (review_stages_unfold CHUNK_SIZE' USER_SAMPLES w2 corpus) by done.
  cbv zeta. destruct (read_csv_rows review_names corpus) as [df|e].
  2: { simpl. rewrite Hs1, Hs2. done. }
  destruct (Hcohort randomSeed df) as [H1 H2].
  pose proof (user_cohort_files G USER_SAMPLES df
                (with_np_random G (seed G randomSeed) w1)) as Hf1.
  pose proof (user_cohort_files G USER_SAMPLES df
                (with_np_random G (seed G randomSeed) w2)) as Hf2.
  destruct (user_cohort G USER_SAMPLES df (with_np_random G _ w1))
    as [[cohort1|e1] w1'];
  destruct (user_cohort G USER_SAMPLES df (with_np_random G _ w2))
    as [[cohort2|e2] w2']; simpl in *; simplify_eq.
  - by rewrite !lookup_insert_eq.
  - rewrite Hf1, Hf2, Hs1, Hs2. done.
Qed.
End determinism.

(** ** Numerals and markers *)

Lemma isdigit_pretty_N_char (x : N) : isdigit_ascii (pretty_N_char x) = true.
Proof. unfold pretty_N_char. by repeat case_match. Qed.

Lemma digit_value_pretty_N_char (x : N) :
  (x < 10)%N →
  (Z.of_nat (nat_of_ascii (pretty_N_char x)) - 48)%Z = Z.of_N x.
Proof.
  intros Hx.
  assert (x = 0 ∨ x = 1 ∨ x = 2 ∨ x = 3 ∨ x = 4 ∨ x = 5 ∨ x = 6 ∨ x = 7
          ∨ x = 8 ∨ x = 9)%N as Hcases by lia.
  by destruct Hcases as [->|[->|[->|[->|[->|[->|[->|[->|[->| ->]]]]]]]]].
Qed.

Lemma pretty_N_go_digits_only (x : N) (s : string) :
  digits_only s = true → digits_only (pretty_N_go x s) = true.
Proof.
  revert s. induction (N.lt_wf_0 x) as [x _ IH]; intros s Hs.
  destruct (decide (x = 0)%N) as [->|Hx]; [by rewrite pretty_N_go_0|].
  rewrite pretty_N_go_step by lia. apply IH; [apply N.div_lt; lia|].
  cbn [digits_only]. by rewrite Hs, isdigit_pretty_N_char.
Qed.

Lemma pretty_N_go_nonempty (x : N) (s : string) :
  s ≠ "" → pretty_N_go x s ≠ "".
Proof.
  revert s. induction (N.lt_wf_0 x) as [x _ IH]; intros s Hs.
  destruct (decide (x = 0)%N) as [->|Hx]; [by rewrite pretty_N_go_0|].
  rewrite pretty_N_go_step by lia. apply IH; [apply N.div_lt; lia|done].
Qed.

(** Reading the digits of a numeral gives the number back. *)
Lemma digits_pretty_N_go (x : N) :
  ∃ k : Z, (0 ≤ k)%Z ∧ ∀ number s,
    digits number (pretty_N_go x s) = digits (number * 10 ^ k + Z.of_N x)%Z s.
Proof.
  induction (N.lt_wf_0 x) as [x _ IH].
  destruct (decide (x = 0)%N) as [->|Hx].
  { exists 0%Z. split; [done|]. intros number s. rewrite pretty_N_go_0.
    f_equal. lia. }
  destruct (IH (x `div` 10)%N) as (k & Hpos & Hk); [apply N.div_lt; lia|].
  exists (k + 1)%Z. split; [lia|]. intros number s.
  rewrite pretty_N_go_step, Hk by lia. cbn [digits].
  rewrite isdigit_pretty_N_char, digit_value_pretty_N_char
    by (apply N.mod_lt; lia).
  f_equal. rewrite Z.pow_add_r, Z.pow_1_r by lia.
  pose proof (N.div_mod x 10 ltac:(lia)) as Hdiv.
  apply (f_equal Z.of_N) in Hdiv. rewrite N2Z.inj_add, N2Z.inj_mul in Hdiv.
  change (Z.of_N 10) with 10%Z in Hdiv. lia.
Qed.

Lemma pretty_N_digits (x : N) :
  digits_only (pretty x) = true ∧ pretty x ≠ "" ∧
  digits 0 (pretty x) = (Z.of_N x, "").
Proof.
  unfold pretty, pretty_N. case_decide as Hx; [by subst|]. split_and!.
  - by apply pretty_N_go_digits_only.
  - rewrite pretty_N_go_step by lia. by apply pretty_N_go_nonempty.
  - destruct (digits_pretty_N_go x) as (k & _ & ->). by rewrite Z.mul_0_l.
Qed.

Lemma digits_only_numeral (s : string) : digits_only s = true → numeral s = true.
Proof.
  induction s as [|a s IH]; [done|]. cbn [digits_only numeral].
  intros [-> Hs]%andb_true_iff. by rewrite IH.
Qed.

(** The decimal numeral of an integer is not empty and has only digits
    after its sign. *)
Lemma pretty_Z_numeral (n : Z) : numeral (pretty n) = true ∧ pretty n ≠ "".
Proof.
  destruct n as [|x|x]; [done| |].
  - destruct (pretty_N_digits (N.pos x)) as (Hnum & Hne & _).
    split; [by apply digits_only_numeral|done].
  - destruct (pretty_N_digits (N.pos x)) as (Hnum & Hne & _).
    apply digits_only_numeral in Hnum.
    change (pretty (Z.neg x)) with ("-" +:+ pretty (N.pos x)). split; [|done].
    change (numeral ("-" +:+ pretty (N.pos x)))
      with (true && numeral (pretty (N.pos x))). by rewrite Hnum.
Qed.

Lemma numeral_not_marker (s : string) :
  numeral s = true → s ≠ "" → s ∉ STR_NA_VALUES.
Proof.
  intros Hnum Hne Hin.
  assert (Hmarkers : Forall (λ m, m = "" ∨ numeral m = false) STR_NA_VALUES).
  { apply (bool_decide_unpack _). by vm_compute. }
  rewrite Forall_forall in Hmarkers.
  destruct (Hmarkers s Hin) as [?|?]; congruence.
Qed.

(** The int64 converter on a text of digits. *)
Lemma str_to_int64_digits (isneg : bool) (p : string) (number : Z) :
  digits_only p = true → p ≠ "" → digits 0 p = (number, "") →
  str_to_int64 (if isneg then "-" +:+ p else p)
  = let number := if isneg then (- number)%Z else number in
    if decide (INT64_MIN ≤ number ≤ INT64_MAX)%Z then Converted number
    else Failed ERROR_OVERFLOW.
Proof.
  intros Hdigits Hne Hnumber. destruct p as [|a p]; [done|].
  cbn [digits_only] in Hdigits. apply andb_true_iff in Hdigits as [Ha _].
  assert (Hspace : isspace_ascii a = false).
  { unfold isspace_ascii, isdigit_ascii in *.
    destruct (nat_of_ascii a =? 32) eqn:?, (9 <=? nat_of_ascii a) eqn:?,
      (nat_of_ascii a <=? 13) eqn:?, (48 <=? nat_of_ascii a) eqn:?,
      (nat_of_ascii a <=? 57) eqn:?; try done;
      rewrite ?Nat.eqb_eq, ?Nat.leb_le, ?Nat.leb_gt in *; lia. }
  assert (Hsign : skip_sign (String a p) = (false, String a p)).
  { destruct a as [[] [] [] [] [] [] [] []]; done. }
  unfold str_to_int64. destruct isneg.
  - change (skip_space ("-" +:+ String a p)) with (String "-" (String a p)).
    cbn [skip_sign]. rewrite Ha, Hnumber. cbv zeta. by case_decide.
  - cbn [skip_space]. rewrite Hspace, Hsign, Ha, Hnumber. cbv zeta. by case_decide.
Qed.

(** The numeral of an int64 is read back as that integer. *)
Lemma str_to_int64_pretty (n : Z) :
  (INT64_MIN ≤ n ≤ INT64_MAX)%Z → str_to_int64 (pretty n) = Converted n.
Proof.
  intros Hrange. destruct n as [|x|x]; [done| |].
  - destruct (pretty_N_digits (N.pos x)) as (Hdigits & Hne & Hnumber).
    change (pretty (Z.pos x)) with (pretty (N.pos x)).
    rewrite (str_to_int64_digits false _ _ Hdigits Hne Hnumber). cbv zeta.
    by rewrite decide_True.
  - destruct (pretty_N_digits (N.pos x)) as (Hdigits & Hne & Hnumber).
    change (pretty (Z.neg x)) with ("-" +:+ pretty (N.pos x)).
    rewrite (str_to_int64_digits true _ _ Hdigits Hne Hnumber). cbv zeta.
    by rewrite decide_True.
Qed.

(** What the int64 converter takes is an int64. *)
Lemma str_to_int64_range (s : string) (n : Z) :
  str_to_int64 s = Converted n → (INT64_MIN ≤ n ≤ INT64_MAX)%Z.
Proof.
  unfold str_to_int64. destruct (skip_sign (skip_space s)) as [isneg p].
  destruct p as [|a p]; [done|].
  destruct (isdigit_ascii a); [|done].
  destruct (digits 0 (String a p)) as [number rest].
  case_decide; [|done]. destruct (skip_space rest); [|done]. by intros [= <-].
Qed.

(** ** Fields and entries *)

Lemma csv_field_idemp (c : cell) : csv_field (csv_field c) = csv_field c.
Proof.
  destruct c as [[|b|n|x|s|l|d]|]; cbn [csv_field]; try done.
  - destruct b; by cbn.
  - destruct (pretty_Z_numeral n) as [_ Hne]. by rewrite decide_False.
  - case_decide; [done|]. cbn [csv_field]. by rewrite decide_False.
Qed.



Lemma csv_field_field_at (j : nat) (fields : list cell) :
  csv_field (field_at j fields) = field_at j fields.
Proof. apply csv_field_idemp. Qed.

(** A field that is not read as missing holds a value. *)
Lemma na_field_false_isna (f : cell) : na_field f = false → isna f = false.
Proof. by destruct f as [[]|]. Qed.

Lemma na_field_PInt (n : Z) : na_field (Some (PInt n)) = false.
Proof.
  unfold na_field. cbn [csv_field]. apply bool_decide_eq_false.
  destruct (pretty_Z_numeral n). by apply numeral_not_marker.
Qed.

Lemma na_field_PBool (b : bool) : na_field (Some (PBool b)) = false.
Proof. by destruct b. Qed.

(** An entry that was read, written again, is a field that is filled
    exactly when the field it was read from is, whatever the type of the
    column. *)
Lemma na_field_convert_with dt upcast (f : cell) :
  na_field (convert_with dt upcast f) = na_field f.
Proof.
  unfold convert_with. case_decide; [by destruct f|].
  destruct (na_field f) eqn:Hna; [done|].
  destruct dt, f as [[]|]; try done; repeat case_match;
    rewrite ?na_field_PInt, ?na_field_PBool; done.
Qed.

(** In a column whose markers are looked for, the entry read from a field
    is missing exactly when the field is empty or holds a marker. *)
Lemma isna_convert_with dt upcast (f : cell) :
  dt ≠ object_as_is →
  isna (convert_with dt upcast f) = na_field f.
Proof.
  intros Hdt. unfold convert_with. rewrite decide_False by done.
  destruct (na_field f) eqn:Hna; [done|].
  apply na_field_false_isna in Hna.
  destruct dt, f as [[]|]; try done; repeat case_match; done.
Qed.

(** In a column none of whose fields overflows int64, an entry written
    again does not overflow either. *)
Lemma overflows_convert_with dt upcast (f : cell) :
  dt ≠ uint64 → csv_field f = f → ¬ overflows f →
  ¬ overflows (csv_field (convert_with dt upcast f)).
Proof.
  intros Hdt Hcanon Hf. unfold convert_with.
  case_decide; [destruct f; [by rewrite Hcanon|done]|].
  destruct (na_field f) eqn:Hna; [done|].
  destruct dt, f as [[| | | |s| |]|]; try done; try (by rewrite Hcanon).
  - destruct (str_to_int64 s) as [n|e] eqn:Hs; [|by rewrite Hcanon].
    destruct upcast; [done|]. unfold overflows. cbn [csv_field word_to_int64].
    rewrite str_to_int64_pretty; [done|]. by eapply str_to_int64_range.
  - destruct (to_boolean s) as [[]|]; [done..|]. by rewrite Hcanon.
Qed.

Lemma first_error_elem {A B} (convert : A → conversion B) (l : list A) e :
  first_error convert l = Some e → ∃ x, x ∈ l ∧ convert x = Failed e.
Proof.
  induction l as [|x l IH]; [done|]. cbn [first_error].
  destruct (convert x) as [b|e'] eqn:Hx.
  - intros (y & Hy & Hconv)%IH. exists y. split; [by right|done].
  - intros [= ->]. exists x. split; [by left|done].
Qed.

(** A column none of whose fields overflows int64 is given one of the
    types int64, float64, bool, object. *)
Lemma infer_dtype_within_int64 (col : list cell) :
  Forall (λ f, ¬ overflows f) col →
  infer_dtype col ≠ object_as_is ∧ infer_dtype col ≠ uint64.
Proof.
  intros Hcol. unfold infer_dtype.
  destruct (column_has_float _);
    [unfold infer_float_bool_object; by repeat case_match|].
  destruct (first_error word_to_int64 _) as [e|] eqn:Herr; [|done].
  assert (e ≠ ERROR_OVERFLOW) as He.
  { intros ->. apply first_error_elem in Herr as (f & Hf & Hover).
    apply list_elem_of_filter in Hf as [_ Hf].
    rewrite Forall_forall in Hcol. by apply (Hcol f Hf). }
  unfold infer_float_bool_object. destruct e; [|done|]; by repeat case_match.
Qed.

Lemma row_of_fields_cons n (names : list string) (f : cell) (fields : list cell) :
  row_of_fields (n :: names) (f :: fields) =
    match f with
    | Some v => (n, v) :: row_of_fields names fields
    | None => row_of_fields names fields
    end.
Proof. by destruct f. Qed.

Lemma dict_get_row_of_fields_None (names : list string) (fields : list cell) c :
  c ∉ names → dict_get (row_of_fields names fields) c = None.
Proof.
  revert fields. induction names as [|n names IH]; intros fields Hc; [done|].
  apply not_elem_of_cons in Hc as [Hne Hc].
  destruct fields as [|f fields]; [done|]. rewrite row_of_fields_cons.
  destruct f as [v|]; simpl; [rewrite decide_False by done|]; by apply IH.
Qed.

Lemma dict_get_row_of_fields (names : list string) (fields : list cell) i c :
  NoDup names → names !! i = Some c →
  dict_get (row_of_fields names fields) c = mjoin (fields !! i).
Proof.
  intros Hnd. revert fields i. induction Hnd as [|n names Hn Hnd IH];
    intros fields i Hi; [done|].
  destruct fields as [|f fields].
  { by rewrite lookup_nil. }
  rewrite row_of_fields_cons. destruct i as [|i]; simpl in *.
  - simplify_eq. destruct f as [v|]; simpl.
    + by rewrite decide_True.
    + by apply dict_get_row_of_fields_None.
  - assert (n ≠ c) by (intros ->; apply Hn; by eapply list_elem_of_lookup_2).
    destruct f as [v|]; simpl; [rewrite decide_False by done|]; by apply IH.
Qed.

Lemma filter_Forall_id {A} (P : A → Prop) `{∀ x, Decision (P x)} (l : list A) :
  Forall P l → filter P l = l.
Proof.
  induction 1 as [|x l Hx _ IH]; [done|].
  by rewrite filter_cons_True, IH.
Qed.




(** ** The frame [pd.read_csv] builds *)

Lemma read_csv_rows_columns names file df :
  read_csv_rows names file = Ok df → columns df = names.
Proof. unfold read_csv_rows. case_decide; [|done]. by intros [= <-]. Qed.

(** The relation of a line to the row read from it, [k] columns of index
    before the named ones.  An entry written again is a field that is
    filled exactly when the field it was read from is.  In a column none of
    whose fields overflows int64, an entry is missing exactly when its field
    is empty or holds a marker, and written again it does not overflow. *)
Lemma read_csv_rows_spec names file df :
  NoDup names →
  read_csv_rows names file = Ok df →
  let lines := filter (λ fields, fields ≠ []) file in
  let k := (length names `max` default 0 (length <$> head lines))
           - length names in
  columns df = names ∧
  Forall2 (λ fields r,
             (∀ j c, names !! j = Some c →
                na_field (dict_get r c) = na_field (field_at (k + j) fields) ∧
                (Forall (λ fields', ¬ overflows (field_at (k + j) fields')) lines →
                 isna (dict_get r c) = na_field (field_at (k + j) fields) ∧
                 ¬ overflows (csv_field (dict_get r c)))) ∧
             (∀ c, c ∉ names → dict_get r c = None))
    lines (rows df).
Proof.
  intros Hnd. unfold read_csv_rows. case_decide; [|done]. intros [= <-].
  cbv zeta. cbn [columns rows]. split; [done|].
  apply Forall2_fmap_r, Forall_Forall2_diag, Forall_forall. intros fields Hin.
  split.
  - intros j c Hj. rewrite (dict_get_row_of_fields names _ j c Hnd Hj).
    rewrite list_lookup_imap, list_lookup_fmap.
    rewrite lookup_seq_lt by (by eapply lookup_lt_Some).
    cbn [fmap option_fmap option_map mjoin option_join mbind option_bind].
    unfold convert_column. split; [apply na_field_convert_with|].
    intros Hcol.
    match goal with
    | |- context [infer_dtype ?col] =>
        destruct (infer_dtype_within_int64 col) as [Hobj Huint]
    end.
    { apply Forall_fmap. exact Hcol. }
    split; [by apply isna_convert_with|].
    apply overflows_convert_with; [done|apply csv_field_field_at|].
    rewrite Forall_forall in Hcol. by apply Hcol.
  - intros c Hc. by apply dict_get_row_of_fields_None.
Qed.

(** A file none of whose lines is blank or longer than [names] is read,
    line by line and name by name. *)
Lemma read_csv_rows_full names file :
  NoDup names →
  Forall (λ fields, 0 < length fields ≤ length names) file →
  ∃ records,
    read_csv_rows names file = Ok {| columns := names; rows := records |} ∧
    Forall2 (λ fields r,
               (∀ j c, names !! j = Some c →
                  na_field (dict_get r c) = na_field (field_at j fields) ∧
                  (Forall (λ fields', ¬ overflows (field_at j fields')) file →
                   isna (dict_get r c) = na_field (field_at j fields) ∧
                   ¬ overflows (csv_field (dict_get r c)))) ∧
               (∀ c, c ∉ names → dict_get r c = None))
      file records.
Proof.
  intros Hnd Hwidth.
  assert (Hlines : filter (λ fields : list cell, fields ≠ []) file = file).
  { apply filter_Forall_id. eapply Forall_impl; [exact Hwidth|].
    intros [|f fields] [? ?]; [simpl in *; lia|done]. }
  assert (Hmax : length names `max` default 0 (length <$> head file)
                 = length names).
  { destruct Hwidth as [|fields file [_ Hle] _]; cbn; lia. }
  destruct (read_csv_rows names file) as [[cols records]|e] eqn:Hread.
  - pose proof (read_csv_rows_spec names file _ Hnd Hread) as [Hcols Hrows].
    cbn [columns rows] in *. subst cols. exists records. split; [done|].
    rewrite Hlines, Hmax, Nat.sub_diag in Hrows. exact Hrows.
  - unfold read_csv_rows in Hread. rewrite Hlines, Hmax in Hread.
    rewrite decide_True in Hread; [done|].
    eapply Forall_impl; [exact Hwidth|]. by intros fields [_ ?].
Qed.


(** ** The quality filter *)

Lemma NoDup_metadata_names : NoDup metadata_names.
Proof. apply (bool_decide_unpack _). by vm_compute. Qed.

Lemma dropna_complete (meta : DataFrame) :
  ["categories"; "title"] ⊆ columns meta →
  dropna meta ["categories"; "title"]
  = Ok {| columns := columns meta; rows := filter complete (rows meta) |}.
Proof.
  intros Hsub. unfold dropna. rewrite decide_True by done.
  do 2 f_equal. apply list_filter_iff. intros r. unfold complete.
  rewrite Forall_cons, Forall_singleton. done.
Qed.

Section quality.
Context (G : Generator).
Implicit Types (w : world G).

Lemma quality_filter_unfold w :
  quality_filter G w =
    match files w !! metadata_sample_csv with
    | None => (Raise FileNotFoundError, w)
    | Some file =>
        match read_csv_rows metadata_names file with
        | Raise e => (Raise e, w)
        | Ok df =>
            let meta :=
              {| columns := metadata_names;
                 rows := filter complete (rows df) |} in
            (Ok meta,
             with_files G (<[metadata_sample_csv := to_csv_rows meta]> (files w)) w)
        end
    end.
Proof.
  unfold quality_filter, cell_17, cell_19, read_csv. unfold_M.
  destruct (files w !! metadata_sample_csv) as [file|]; [|done].
  destruct (read_csv_rows metadata_names file) as [df|e] eqn:Hread; [|done].
  apply read_csv_rows_columns in Hread.
  rewrite dropna_complete by (rewrite Hread; set_solver).
  by rewrite Hread.
Qed.


End quality.


(** ** Re-running the stages *)

Section rerun.
Context (G : Generator).
Implicit Types (w : world G).

Lemma with_files_id w path (file : csv) :
  files w !! path = Some file →
  with_files G (<[path := file]> (files w)) w = w.
Proof.
  intros Hf. rewrite insert_id by done. by destruct w.
Qed.

Lemma cell_16_skip CHUNK_SIZE sample w :
  is_Some (files w !! metadata_sample_csv) →
  cell_16 G CHUNK_SIZE sample w = (Ok (), w).
Proof.
  intros Hex. unfold cell_16. unfold_M.
  by rewrite bool_decide_eq_true_2.
Qed.


End rerun.


(** ** The metadata join filter *)

Section metadata.
Context (G : Generator).
Implicit Types (w : world G) (sample : DataFrame) (data : list pydict).

Lemma flush_chunk_unfold sample data w :
  flush_chunk G sample data w =
    if decide ("asin" ∈ columns (from_dict data)) then
      if decide ("asin" ∈ columns sample) then
        if decide (metadata_names ⊆ columns (from_dict data)) then
          let chunk :=
            {| columns := metadata_names;
               rows := filter (λ r, dict_get r "asin" ∈ products sample) data |} in
          (Ok (length (rows chunk)),
           with_files G
             (<[metadata_sample_csv :=
                  default [] (files w !! metadata_sample_csv)
                  ++ to_csv_rows chunk]> (files w)) w)
        else (Raise KeyError, w)
      else (Raise KeyError, w)
    else (Raise KeyError, w).
Proof.
  unfold flush_chunk, getitem, getitem_list, getitem_mask, isin, products.
  unfold_M. cbn [columns rows from_dict].
  destruct (decide ("asin" ∈ _)); [|done].
  destruct (decide ("asin" ∈ columns sample)); [|done].
  destruct (decide (metadata_names ⊆ _)); [|done].
  rewrite <-list_fmap_compose.
  by rewrite <-(mask_rows_fmap
                  (λ r, dict_get r "asin"
                        ∈ (λ r, dict_get r "asin") <$> rows sample)).
Qed.

(** A flush either raises and changes nothing, or adds lines at the end
    of the artifact and changes nothing else. *)
Lemma flush_chunk_appends sample data w :
  (∃ e, flush_chunk G sample data w = (Raise e, w)) ∨
  (∃ n new,
     flush_chunk G sample data w
     = (Ok n, with_files G
                (<[metadata_sample_csv :=
                     default [] (files w !! metadata_sample_csv) ++ new]>
                   (files w)) w)).
Proof.
  rewrite flush_chunk_unfold. repeat case_decide; eauto.
Qed.

(** One turn of the loop. *)
Lemma metadata_loop_cons CHUNK_SIZE sample line f data total w :
  metadata_loop G CHUNK_SIZE sample (line :: f) data total w =
    match literal_eval line with
    | Raise e => (Raise e, w)
    | Ok d =>
        let data' := data ++ [pop_keys metadata_popped d] in
        if decide (length data' = CHUNK_SIZE) then
          match flush_chunk G sample data' w with
          | (Ok n, w') =>
              metadata_loop G CHUNK_SIZE sample f [] (total + n) w'
          | (Raise e, w') => (Raise e, w')
          end
        else metadata_loop G CHUNK_SIZE sample f data' total w
    end.
Proof.
  cbn [metadata_loop]. unfold mbind at 1, M_bind at 1, lift at 1.
  destruct (literal_eval line) as [d|e]; [|done].
  cbv zeta. case_decide; done.
Qed.



Lemma cell_16_run CHUNK_SIZE sample w :
  files w !! metadata_sample_csv = None →
  cell_16 G CHUNK_SIZE sample w =
    match metadata_loop G CHUNK_SIZE sample (metadata_json w) [] 0 w with
    | (Ok _, w') => (Ok (), w')
    | (Raise e, w') => (Raise e, w')
    end.
Proof.
  intros Hno. unfold cell_16. unfold_M.
  rewrite bool_decide_eq_false_2 by (rewrite Hno; by intros [? ?]).
  by destruct (metadata_loop _ _ _ _ _ _ _) as [[n|e] w'].
Qed.


(** What the loop adds to the artifact are lines of products that occur in
    the sampled reviews: the first field of each is a product identifier of
    [kcore_5_compact_sample]. *)
Lemma metadata_loop_sound CHUNK_SIZE sample f data total w :
  ∃ new,
    default [] (files (metadata_loop G CHUNK_SIZE sample f data total w).2
                  !! metadata_sample_csv)
    = default [] (files w !! metadata_sample_csv) ++ new ∧
    Forall (λ fields, ∃ c, c ∈ products sample ∧ fields !! 0 = Some (csv_field c))
      new.
Proof.
  revert data total w. induction f as [|line f IH]; intros data total w.
  { exists []. by rewrite app_nil_r. }
  rewrite metadata_loop_cons.
  destruct (literal_eval line) as [d|e]; [|exists []; by rewrite app_nil_r].
  cbv zeta. case_decide; [|apply IH].
  rewrite flush_chunk_unfold.
  repeat case_decide; try (exists []; by rewrite app_nil_r).
  cbv beta iota zeta.
  match goal with
  | |- context [metadata_loop G _ _ f [] ?t ?w1] =>
      destruct (IH [] t w1) as (new & -> & Hnew)
  end.
  cbn [files with_files]. rewrite lookup_insert_eq. cbn [default from_option].
  unfold id. eexists. rewrite <-app_assoc. split; [done|].
  apply Forall_app. split; [|done].
  apply Forall_forall.
  intros fields (r & -> & [Hr _]%list_elem_of_filter)%list_elem_of_fmap.
  by exists (dict_get r "asin").
Qed.

(** Lines that do not fill a chunk are read and never written: [data]
    still holds them when the file is exhausted. *)
Lemma metadata_loop_tail_unwritten CHUNK_SIZE sample f data total w :
  length data + length f < CHUNK_SIZE →
  (metadata_loop G CHUNK_SIZE sample f data total w).2 = w.
Proof.
  revert data. induction f as [|line f IH]; intros data Hlen; [done|].
  rewrite metadata_loop_cons. destruct (literal_eval line) as [d|e]; [|done].
  cbv zeta. simpl in Hlen.
  rewrite decide_False by (rewrite length_app; simpl; lia).
  apply IH. rewrite length_app. simpl. lia.
Qed.
End metadata.

(** ** The trailing chunk of the metadata corpus *)

(** The frames of the scenario are the ones the cells compute. *)
Lemma scenario_frames :
  (cell_10 rotating (cell_8 rotating 2 Scenario.fresh).2).1 = Ok Scenario.compacted ∧
  (review_stages rotating 2 3 Scenario.fresh).1 = Ok Scenario.sampled.
Proof. split; by vm_compute. Qed.

(** C4 (the code departs from the claim): with [CHUNK_SIZE = 2] and five
    metadata records, cell 16 completes and writes the sampled products of
    the first four records only; the fifth record, whose product [B5] is in
    the sampled reviews, is read and never appended. *)
Theorem C4_trailing_records_lost :
  let r := cell_16 rotating 2 Scenario.sampled Scenario.fresh in
  r.1 = Ok () ∧
  metadata_json Scenario.fresh !! 4
    = Some (Scenario.product "B5" Scenario.books (PStr "T5")) ∧
  Some (PStr "B5") ∈ products Scenario.sampled ∧
  files r.2 !! metadata_sample_csv
    = Some [Scenario.extract_line "B1" "T1";
            [Some (PStr "B3"); Some Scenario.books; None;
             Some (PStr "description");
             Some (PDict [("also_bought", PList [])])];
            Scenario.extract_line "B4" "T4"].
Proof.
  cbv zeta. split_and!.
  - by vm_compute.
  - done.
  - apply (bool_decide_unpack _). by vm_compute.
  - by vm_compute.
Qed.

(** C6 (the code departs from the claim): two full runs of the notebook
    over the same corpora, seed and sample size, one with [CHUNK_SIZE = 1]
    and one with [CHUNK_SIZE = 2], both complete and agree on the compacted
    and on the sampled reviews, and end with different metadata extracts:
    the record of [B5] is in the first and not in the second. *)
Theorem C6_chunk_size_changes_extract :
  let r1 := run_all rotating 1 3 Scenario.fresh in
  let r2 := run_all rotating 2 3 Scenario.fresh in
  is_ok r1.1 = true ∧ is_ok r2.1 = true ∧
  files r1.2 !! kcore_5_compact_csv = files r2.2 !! kcore_5_compact_csv ∧
  files r1.2 !! kcore_5_compact_sample_csv
    = files r2.2 !! kcore_5_compact_sample_csv ∧
  files r1.2 !! metadata_sample_csv
    = Some [Scenario.extract_line "B1" "T1"; Scenario.extract_line "B4" "T4";
            Scenario.extract_line "B5" "T5"] ∧
  files r2.2 !! metadata_sample_csv
    = Some [Scenario.extract_line "B1" "T1"; Scenario.extract_line "B4" "T4"].
Proof.
  cbv zeta. split_and!; by vm_compute.
Qed.

(** ** Field projection *)

Lemma dict_get_None (d : pydict) (k : string) :
  k ∉ keys d → dict_get d k = None.
Proof.
  induction d as [|[k' v] d IH]; [done|]. unfold keys. csimpl.
  intros [Hne Hk]%not_elem_of_cons.
  rewrite decide_False by done. by apply IH.
Qed.

Lemma dict_get_pop (d : pydict) (k k' : string) :
  dict_get (dict_pop k d) k' = if decide (k' = k) then None else dict_get d k'.
Proof.
  unfold dict_pop. induction d as [|[k0 v] d IH].
  - by case_decide.
  - rewrite filter_cons. simpl. destruct (decide (k0 ≠ k)) as [Hne|Heq%dec_stable].
    + simpl. destruct (decide (k0 = k')) as [->|Hne'].
      * by rewrite decide_False.
      * exact IH.
    + subst. rewrite IH. destruct (decide (k' = k)) as [->|Hne]; [done|].
      by rewrite decide_False.
Qed.

Lemma dict_get_pop_keys (ks : list string) (d : pydict) (k : string) :
  dict_get (pop_keys ks d) k = if decide (k ∈ ks) then None else dict_get d k.
Proof.
  unfold pop_keys. revert d. induction ks as [|k0 ks IH]; intros d; cbn [foldl].
  - rewrite decide_False; [done | apply not_elem_of_nil].
  - rewrite IH. destruct (decide (k ∈ ks)) as [Hin|Hnin].
    + rewrite decide_True; [done | by right].
    + rewrite dict_get_pop. destruct (decide (k = k0)) as [->|Hne].
      * rewrite decide_True; [done | by left].
      * rewrite decide_False; [done|]. by intros [?|?]%elem_of_cons.
Qed.

Lemma elem_of_columns_from_dict (data : list pydict) (l : string) :
  l ∈ columns (from_dict data) ↔ ∃ d, d ∈ data ∧ l ∈ keys d.
Proof.
  unfold from_dict. cbn [columns]. rewrite elem_of_unique, list_elem_of_bind.
  naive_solver.
Qed.

(** C9 as stated fails: a chunk none of whose records carries a listed
    field is not projected, the projection raises [KeyError].  On the
    metadata path a chunk of one product without description makes the
    column selection, and with it cell 16, raise; on the reviews path a chunk
    of one review without reviewer name makes the column drop raise. *)
Lemma C9_missing_column_raises :
  (∃ d, literal_eval (Scenario.bare_product "B1") = Ok d ∧
        getitem_list (from_dict [pop_keys metadata_popped d]) metadata_names
        = Raise KeyError) ∧
  (cell_16 rotating 1 Scenario.sampled
     (@mkWorld rotating [] [Scenario.bare_product "B1"] ∅ (0 : nat))).1
  = Raise KeyError ∧
  (∃ d, json_loads (Scenario.anonymous_review "A1" "B1" 5) = Ok d ∧
        drop_columns (from_dict [d]) review_dropped = Raise KeyError) ∧
  (cell_8 rotating 1
     (@mkWorld rotating [Scenario.anonymous_review "A1" "B1" 5] [] ∅ (0 : nat))).1
  = Raise KeyError.
Proof.
  split_and!.
  - eexists. split; [done|]. by vm_compute.
  - by vm_compute.
  - eexists. split; [done|]. by vm_compute.
  - by vm_compute.
Qed.

(** C9, amended: for a chunk of records and a list of fields each of which
    is carried by at least one record of the chunk, the column selection
    succeeds and writes, for every record in order, exactly the listed
    fields in the listed order, the missing value standing for a field the
    record lacks; the column drop succeeds and keeps the other columns of the
    chunk in their order.  When some listed field is carried by no record of
    the chunk, both raise [KeyError].  Popping keys never raises: the popped
    keys are gone and the others are as they were. *)
Theorem C9_projection (data : list pydict) (labels : list string) :
  let carried (l : string) := ∃ d, d ∈ data ∧ l ∈ keys d in
  ((∀ l, l ∈ labels → carried l) →
     (∃ chunk,
        getitem_list (from_dict data) labels = Ok chunk ∧
        to_csv_rows chunk
        = (λ d, (λ l, csv_field (dict_get d l)) <$> labels) <$> data) ∧
     (∃ chunk,
        drop_columns (from_dict data) labels = Ok chunk ∧
        columns chunk = filter (λ c, c ∉ labels) (columns (from_dict data)) ∧
        rows chunk = data)) ∧
  ((∃ l, l ∈ labels ∧ ¬ carried l) →
     getitem_list (from_dict data) labels = Raise KeyError ∧
     drop_columns (from_dict data) labels = Raise KeyError) ∧
  (∀ d l, l ∉ keys d → csv_field (dict_get d l) = None) ∧
  (∀ d k,
     dict_get (pop_keys labels d) k
     = if decide (k ∈ labels) then None else dict_get d k).
Proof.
  intros carried. split_and!.
  - intros Hall.
    assert (labels ⊆ columns (from_dict data)) as Hsub.
    { intros l Hl. apply elem_of_columns_from_dict. by apply Hall. }
    unfold getitem_list, drop_columns. rewrite !decide_True by done.
    split; eexists; split; try done.
  - intros (l & Hl & Hnot).
    assert (¬ labels ⊆ columns (from_dict data)) as Hsub.
    { intros Hsub. apply Hnot, elem_of_columns_from_dict. by apply Hsub. }
    unfold getitem_list, drop_columns. by rewrite !decide_False by done.
  - intros d l Hl. by rewrite dict_get_None.
  - intros d k. apply dict_get_pop_keys.
Qed.

(** ** The order of first appearance *)

Section grouping.
Context {A B : Type} `{EqDecision A} (f : B → A).
Implicit Types (l : list B) (us seen : list A).

Lemma unique_from_skip seen (g rest : list A) :
  Forall (λ x, x ∈ seen) g →
  unique_from seen (g ++ rest) = unique_from seen rest.
Proof.
  induction 1 as [|x g Hx _ IH]; [done|]. simpl. by rewrite decide_True.
Qed.

Lemma unique_from_groups l us seen :
  NoDup us → (∀ u, u ∈ us → u ∉ seen) → (∀ u, u ∈ us → u ∈ f <$> l) →
  unique_from seen (f <$> (us ≫= λ u, filter (λ r, f r = u) l)) = us.
Proof.
  intros Hnd. revert seen. induction Hnd as [|u us Hu Hnd IH]; intros seen Hseen Hin.
  { done. }
  rewrite bind_cons, fmap_app.
  assert (Hall : Forall (λ x, x = u) (f <$> filter (λ r, f r = u) l)).
  { apply Forall_forall. by intros x (r & -> & [? _]%list_elem_of_filter)%list_elem_of_fmap. }
  assert (Hne : u ∈ f <$> filter (λ r, f r = u) l).
  { assert (u ∈ f <$> l) as (r & Hr & Hrl)%list_elem_of_fmap
      by (apply Hin; by left).
    apply list_elem_of_fmap. exists r. split; [done|]. by apply list_elem_of_filter. }
  destruct (f <$> filter (λ r, f r = u) l) as [|x g]; [by apply elem_of_nil in Hne|].
  apply Forall_cons in Hall as [-> Hall]. simpl.
  rewrite decide_False by (apply Hseen; by left).
  f_equal. rewrite unique_from_skip.
  - apply IH.
    + intros v Hv [->|Hvs]%elem_of_cons; [done|]. apply (Hseen v); [by right|done].
    + intros v Hv. apply Hin. by right.
  - eapply Forall_impl; [exact Hall|]. intros ? ->. by left.
Qed.

Lemma filter_groups_cons l u us :
  u ∉ us →
  filter (λ r, f r = u) l ++ filter (λ r, f r ∈ us) l
    ≡ₚ filter (λ r, f r ∈ u :: us) l.
Proof.
  intros Hu. induction l as [|r l IH]; [done|].
  rewrite !filter_cons.
  destruct (decide (f r = u)) as [Hr|Hr].
  - rewrite decide_False by (by rewrite Hr).
    rewrite decide_True by (rewrite Hr; by left).
    simpl. by rewrite IH.
  - destruct (decide (f r ∈ us)) as [Hrs|Hrs].
    + rewrite decide_True by (by right).
      rewrite <-Permutation_middle. by rewrite IH.
    + rewrite decide_False by (by intros [?|?]%elem_of_cons). exact IH.
Qed.

Lemma bind_groups_Permutation l us :
  NoDup us → (∀ r, r ∈ l → f r ∈ us) →
  (us ≫= λ u, filter (λ r, f r = u) l) ≡ₚ l.
Proof.
  intros Hnd Hall.
  trans (filter (λ r, f r ∈ us) l);
    [|by rewrite filter_Forall_id by (by apply Forall_forall)].
  clear Hall. induction Hnd as [|u us Hu Hnd IH].
  - simpl. induction l as [|r l IHl]; [done|].
    rewrite filter_cons_False; [done | apply not_elem_of_nil].
  - rewrite bind_cons, IH. by apply filter_groups_cons.
Qed.
End grouping.

Section exchange.
Context {A : Type} `{EqDecision A}.

Lemma exchange_involutive (a b x : A) : exchange a b (exchange a b x) = x.
Proof. unfold exchange. repeat case_decide; congruence. Qed.

#[global] Instance exchange_inj (a b : A) : Inj (=) (=) (exchange a b).
Proof.
  intros x y Hxy. by rewrite <-(exchange_involutive a b x), Hxy, exchange_involutive.
Qed.

Lemma exchange_l (a b : A) : exchange a b a = b.
Proof. unfold exchange. by rewrite decide_True. Qed.

Lemma elem_of_exchange (a b : A) (l : list A) x :
  a ∈ l → b ∈ l → x ∈ exchange a b <$> l ↔ x ∈ l.
Proof.
  intros Ha Hb. rewrite list_elem_of_fmap. split.
  - intros (y & -> & Hy). unfold exchange. by repeat case_decide.
  - intros Hx. exists (exchange a b x). split; [by rewrite exchange_involutive|].
    unfold exchange. repeat case_decide; by subst.
Qed.
End exchange.

Section order.
Context (G : Generator).
Implicit Types (w : world G) (df : DataFrame).

Lemma reviewers_regroup df (order : list cell) :
  NoDup order → (∀ u, u ∈ order ↔ u ∈ reviewers df) →
  rows (regroup df order) ≡ₚ rows df ∧
  unique (reviewers (regroup df order)) = order.
Proof.
  intros Hnd Hsame. split.
  - apply (bind_groups_Permutation (λ r, dict_get r "reviewerID")); [done|].
    intros r Hr. apply Hsame. unfold reviewers. apply list_elem_of_fmap. eauto.
  - unfold reviewers, regroup. cbn [rows]. unfold unique.
    apply (unique_from_groups (λ r, dict_get r "reviewerID")); [done| |].
    + intros u _. apply not_elem_of_nil.
    + intros u Hu. by apply Hsame.
Qed.

(** A sample smaller than the population leaves a position out. *)
Lemma positions_split (g : rng G) (n size : nat) :
  0 < size < n →
  let idx := take size (permutation G g n).1 in
  ∃ p q, p ∈ idx ∧ (q ∉ idx) ∧ p < n ∧ q < n.
Proof.
  intros [Hpos Hlt] idx. subst idx.
  pose proof (permutation_perm G g n) as Hp.
  set (perm := (permutation G g n).1) in *.
  assert (Hlen : length perm = n) by (by rewrite Hp, length_seq).
  assert (Hnd : NoDup (take size perm ++ drop size perm)).
  { rewrite take_drop, Hp. apply NoDup_seq. }
  apply NoDup_app in Hnd as (_ & Hdisj & _).
  assert (Hbound : ∀ i, i ∈ perm → i < n).
  { intros i Hi. rewrite Hp in Hi. apply elem_of_seq in Hi. lia. }
  destruct (take size perm) as [|p P] eqn:HP.
  { apply (f_equal length) in HP. rewrite length_take in HP. simpl in HP. lia. }
  destruct (drop size perm) as [|q D] eqn:HD.
  { apply (f_equal length) in HD. rewrite length_drop in HD. simpl in HD. lia. }
  exists p, q. split_and!.
  - by left.
  - intros Hq. apply (Hdisj q Hq). by left.
  - apply Hbound. rewrite <-(take_drop size perm), HP. by left.
  - apply Hbound. rewrite <-(take_drop size perm), HD.
    apply elem_of_app. right. by left.
Qed.

(** C10: the cohort is read off the distinct reviewers in order of first
    appearance, at the positions drawn by the generator: two corpora with
    the same sequence of distinct reviewers give the same cohort from the
    same generator state, whatever else differs.  The order matters: when
    the sample is neither empty nor the whole population, the same reviews
    put in another order give, from the same generator state, a cohort
    with a user the first cohort does not have. *)
Theorem C10_first_appearance_order USER_SAMPLES df w :
  "reviewerID" ∈ columns df →
  (∀ cohort,
     (user_cohort G USER_SAMPLES df w).1 = Ok cohort →
     Forall2 (λ i u, unique (reviewers df) !! i = Some u)
       (take USER_SAMPLES
          (permutation G (np_random w) (length (unique (reviewers df)))).1)
       cohort) ∧
  (∀ df2 w2,
     "reviewerID" ∈ columns df2 →
     np_random w2 = np_random w →
     unique (reviewers df2) = unique (reviewers df) →
     (user_cohort G USER_SAMPLES df2 w2).1 = (user_cohort G USER_SAMPLES df w).1) ∧
  (0 < USER_SAMPLES < length (unique (reviewers df)) →
   ∃ df2 cohort cohort2 u,
     columns df2 = columns df ∧ rows df2 ≡ₚ rows df ∧
     (user_cohort G USER_SAMPLES df w).1 = Ok cohort ∧
     (user_cohort G USER_SAMPLES df2 w).1 = Ok cohort2 ∧
     u ∈ cohort2 ∧ u ∉ cohort).
Proof.
  intros Hcol. split_and!.
  - intros cohort Hrun.
    destruct (user_cohort G USER_SAMPLES df w) as [r w'] eqn:Hc.
    simpl in Hrun. subst r. by apply user_cohort_inv in Hc as (_ & _ & HF).
  - intros df2 w2 Hcol2 Hg Hu.
    rewrite (user_cohort_unfold _ _ df2), (user_cohort_unfold _ _ df).
    rewrite (decide_True (P := _ ∈ columns df2)) by done.
    rewrite (decide_True (P := _ ∈ columns df)) by done.
    cbv zeta. rewrite Hu, Hg. by case_decide.
  - intros Hsize.
    set (us := unique (reviewers df)) in *.
    destruct (positions_split (np_random w) (length us) USER_SAMPLES Hsize)
      as (p & q & Hp & Hq & Hpn & Hqn).
    destruct (lookup_lt_is_Some_2 us p Hpn) as [a Ha].
    destruct (lookup_lt_is_Some_2 us q Hqn) as [b Hb].
    assert (Hain : a ∈ us) by (by eapply list_elem_of_lookup_2).
    assert (Hbin : b ∈ us) by (by eapply list_elem_of_lookup_2).
    set (us2 := exchange a b <$> us).
    assert (Hnd2 : NoDup us2).
    { apply (NoDup_fmap_2 _). apply NoDup_unique. }
    assert (Hsame : ∀ u, u ∈ us2 ↔ u ∈ reviewers df).
    { intros u. unfold us2. rewrite elem_of_exchange by done. apply elem_of_unique. }
    destruct (reviewers_regroup df us2 Hnd2 Hsame) as [Hperm Hunique].
    destruct (user_cohort_ok G USER_SAMPLES df w Hcol) as (cohort & Hrun & HF);
      [fold us; lia|].
    destruct (user_cohort_ok G USER_SAMPLES (regroup df us2) w Hcol)
      as (cohort2 & Hrun2 & HF2).
    { rewrite Hunique. unfold us2. rewrite length_fmap. lia. }
    rewrite Hunique in HF2. unfold us2 in HF2 at 2. rewrite length_fmap in HF2.
    fold us in HF.
    exists (regroup df us2), cohort, cohort2, b. split_and!.
    + done.
    + done.
    + by rewrite Hrun.
    + by rewrite Hrun2.
    + apply (positions_elem_of _ _ _ _ HF2). exists p. split; [done|].
      unfold us2. rewrite list_lookup_fmap, Ha. simpl. by rewrite exchange_l.
    + intros (i & Hi & Hib)%(positions_elem_of _ _ _ _ HF).
      by pose proof (NoDup_lookup us i q b (NoDup_unique _) Hib Hb) as ->.
Qed.
End order.

(** ** The theorems on the scenario *)

(** The chunked reader of the compactor hands every line to the loop, the
    last lines included; the loop of cell 16 has no such last batch. *)
Lemma chunked_covers {A} (chunksize : nat) (buf l : list A) :
  mjoin (chunked chunksize buf l) = buf ++ l.
Proof.
  revert buf. induction l as [|x l IH]; intros buf; simpl.
  - destruct buf; [done|]. simpl. by rewrite !app_nil_r.
  - case_decide; simpl; rewrite IH; by rewrite <-?app_assoc.
Qed.

(** C1 on the scenario: two worlds with the same compacted corpus, one
    with the corpora and generator state 0, one without them and state 5,
    run with chunk sizes 2 and 7. *)
Lemma C1_sampler_deterministic_witness :
  (∀ s df,
     (user_cohort rotating 3 df
        (np_random_seed rotating s Scenario.compacted_here).2).1
     = (user_cohort rotating 3 df
          (np_random_seed rotating s Scenario.compacted_there).2).1) ∧
  (review_stages rotating 2 3 Scenario.compacted_here).1
    = (review_stages rotating 7 3 Scenario.compacted_there).1 ∧
  files (review_stages rotating 2 3 Scenario.compacted_here).2
    !! kcore_5_compact_sample_csv
    = files (review_stages rotating 7 3 Scenario.compacted_there).2
        !! kcore_5_compact_sample_csv ∧
  np_random (review_stages rotating 2 3 Scenario.compacted_here).2
    = np_random (review_stages rotating 7 3 Scenario.compacted_there).2.
Proof.
  apply (C1_sampler_deterministic rotating 2 7 3 Scenario.compacted_here
           Scenario.compacted_there (to_csv_rows Scenario.compacted));
    by vm_compute.
Defined.

(** C2 on the scenario: three users out of five are drawn; six are
    refused. *)
Lemma C2_cohort_size_witness :
  (∃ cohort w',
     user_cohort rotating 3 Scenario.compacted Scenario.seeded = (Ok cohort, w') ∧
     files w' = files Scenario.seeded ∧
     length cohort = 3 ∧ NoDup cohort ∧
     cohort ⊆ reviewers Scenario.compacted) ∧
  cell_13 rotating 6 Scenario.compacted Scenario.seeded
  = (Raise ValueError, Scenario.seeded).
Proof.
  assert (Hcol : "reviewerID" ∈ columns Scenario.compacted)
    by (apply (bool_decide_unpack _); by vm_compute).
  destruct (C2_cohort_size rotating 3 Scenario.compacted Scenario.seeded Hcol)
    as [Hdrawn _].
  destruct (C2_cohort_size rotating 6 Scenario.compacted Scenario.seeded Hcol)
    as [_ Hfails].
  split.
  - apply Hdrawn. vm_compute. lia.
  - apply Hfails; [vm_compute; lia | by vm_compute].
Defined.

(** C3 on the scenario: the cohort [A3], [A4], [A5] keeps seven of the
    twelve reviews. *)
Lemma C3_sampled_reviews_witness :
  let w' := with_np_random rotating 48 Scenario.seeded in
  ∃ sample,
    review_filter rotating Scenario.compacted Scenario.cohort w' = (Ok sample, w') ∧
    rows sample = rows Scenario.sampled ∧
    (∀ r, r ∈ rows sample → dict_get r "reviewerID" ∈ Scenario.cohort) ∧
    rows sample `sublist_of` rows Scenario.compacted ∧
    (∀ u, u ∈ Scenario.cohort ↔ u ∈ reviewers sample) ∧
    cell_13 rotating 3 Scenario.compacted Scenario.seeded
    = (Ok (), with_files rotating
                (<[kcore_5_compact_sample_csv := to_csv_rows sample]> (files w'))
                w').
Proof.
  intros w'.
  destruct (C3_sampled_reviews rotating 3 Scenario.compacted Scenario.seeded w'
              Scenario.cohort)
    as (sample & Hfilter & Hrows & Hin & Hsub & Hcohort & Hcell).
  - by vm_compute.
  - exists sample.
    split_and!; [exact Hfilter | | exact Hin | exact Hsub | exact Hcohort |].
    + rewrite Hrows. by vm_compute.
    + apply Hcell. by vm_compute.
Defined.




(** C9 on a chunk of a full and a bare product, and on a chunk of the bare
    product alone. *)
Lemma C9_projection_witness :
  let full := pop_keys metadata_popped
                [("asin", PStr "B1"); ("title", PStr "T1"); ("price", PInt 3);
                 ("related", PDict []); ("categories", Scenario.books);
                 ("description", PStr "description")] in
  let bare := [("asin", PStr "B2"); ("title", PStr "T"); ("categories", Scenario.books)] in
  (∃ chunk,
     getitem_list (from_dict [full; bare]) metadata_names = Ok chunk ∧
     to_csv_rows chunk
     = [[Some (PStr "B1"); Some Scenario.books; Some (PStr "T1");
         Some (PStr "description"); Some (PDict [])];
        [Some (PStr "B2"); Some Scenario.books; Some (PStr "T"); None; None]]) ∧
  getitem_list (from_dict [bare]) metadata_names = Raise KeyError ∧
  drop_columns (from_dict [bare]) metadata_names = Raise KeyError.
Proof.
  intros full bare.
  destruct (C9_projection [full; bare] metadata_names) as (Hok & _).
  destruct (C9_projection [bare] metadata_names) as (_ & Hraise & _).
  split.
  - destruct Hok as [(chunk & Hsel & Hrows) _].
    + intros l Hl. exists full. split; [by left|]. revert l Hl.
      apply Forall_forall. apply (bool_decide_unpack _). by vm_compute.
    + exists chunk. split; [done|]. rewrite Hrows. by vm_compute.
  - apply Hraise. exists "description". split.
    + apply (bool_decide_unpack _). by vm_compute.
    + intros (d & ->%list_elem_of_singleton & Hk). revert Hk.
      apply (bool_decide_unpack _). by vm_compute.
Defined.

(** C10 on the scenario: the twelve reviews and the seven sampled ones,
    three users out of five. *)
Lemma C10_first_appearance_order_witness :
  (user_cohort rotating 3 Scenario.compacted Scenario.seeded).1
    = Ok Scenario.cohort ∧
  (user_cohort rotating 3 Scenario.sampled Scenario.seeded).1
    = (user_cohort rotating 3
         {| columns := review_names;
            rows := [Scenario.rating "A3" "B9" 1; Scenario.rating "A4" "B9" 1;
                     Scenario.rating "A5" "B9" 1] |}
         Scenario.seeded).1 ∧
  ∃ df2 cohort cohort2 u,
    columns df2 = columns Scenario.compacted ∧
    rows df2 ≡ₚ rows Scenario.compacted ∧
    (user_cohort rotating 3 Scenario.compacted Scenario.seeded).1 = Ok cohort ∧
    (user_cohort rotating 3 df2 Scenario.seeded).1 = Ok cohort2 ∧
    u ∈ cohort2 ∧ u ∉ cohort.
Proof.
  assert (Hcol : "reviewerID" ∈ columns Scenario.compacted)
    by (apply (bool_decide_unpack _); by vm_compute).
  assert (Hcol3 : "reviewerID" ∈ review_names)
    by (apply (bool_decide_unpack _); by vm_compute).
  destruct (C10_first_appearance_order rotating 3 Scenario.compacted Scenario.seeded
              Hcol) as (_ & _ & Hother).
  destruct (C10_first_appearance_order rotating 3
              {| columns := review_names;
                 rows := [Scenario.rating "A3" "B9" 1; Scenario.rating "A4" "B9" 1;
                          Scenario.rating "A5" "B9" 1] |}
              Scenario.seeded Hcol3) as (_ & Hsame & _).
  split_and!.
  - by vm_compute.
  - apply Hsame; by vm_compute.
  - apply Hother. vm_compute. lia.
Defined.

(** * Further properties of the cells *)

(** ** The chunked reader *)

Lemma chunked_shape {A} (chunksize : nat) (buf l : list A) :
  length buf < chunksize →
  ∃ full last,
    chunked chunksize buf l = full ++ last ∧
    Forall (λ c, length c = chunksize) full ∧
    (last = [] ∨ ∃ c, last = [c] ∧ 0 < length c < chunksize).
Proof.
  revert buf. induction l as [|x l IH]; intros buf Hbuf; simpl.
  - destruct buf as [|b buf].
    + exists [], []. split_and!; [done | constructor | by left].
    + exists [], [b :: buf]. split_and!; [done | constructor |].
      right. eexists. split; [done|]. simpl in *. lia.
  - case_decide as Hfull.
    + destruct (IH []) as (full & last & -> & Hfulls & Hlast);
        [rewrite length_app in Hfull; simpl in *; lia|].
      exists ((buf ++ [x]) :: full), last. split_and!; [done| |done].
      by constructor.
    + apply IH. rewrite length_app in *. simpl in *. lia.
Qed.

(** The batches of the reader of cell 8 are the lines of the file in order:
    every batch but the last holds exactly [chunksize] lines, the last one
    at least one and at most [chunksize], and no line is left out. *)
Theorem chunked_batches {A} (chunksize : nat) (l : list A) :
  0 < chunksize →
  mjoin (chunked chunksize [] l) = l ∧
  Forall (λ c, 0 < length c ≤ chunksize) (chunked chunksize [] l) ∧
  (∀ i c, chunked chunksize [] l !! i = Some c →
          S i < length (chunked chunksize [] l) → length c = chunksize).
Proof.
  intros Hpos. split; [apply (chunked_covers chunksize [] l)|].
  destruct (chunked_shape chunksize [] l) as (full & last & -> & Hfull & Hlast);
    [simpl; lia|].
  split.
  - apply Forall_app. split.
    + eapply Forall_impl; [exact Hfull|]. intros c Hc. simpl in Hc. lia.
    + destruct Hlast as [->|(c & -> & Hc)]; [constructor|].
      apply Forall_singleton. lia.
  - intros i c Hi Hlt. rewrite length_app in Hlt.
    assert (i < length full) as Hin.
    { destruct Hlast as [->|(c' & -> & _)]; simpl in Hlt; lia. }
    rewrite lookup_app_l in Hi by done.
    by apply (Forall_lookup_1 _ _ _ _ Hfull Hi).
Qed.

(** ** The compactor on a corpus of uniform records *)

Lemma unique_from_absorb {A} `{EqDecision A} (seen l rest : list A) :
  Forall (λ x, x ∈ l ∨ x ∈ seen) rest →
  unique_from seen (l ++ rest) = unique_from seen l.
Proof.
  revert seen. induction l as [|x l IH]; intros seen Hrest.
  - rewrite <-(app_nil_r rest). simpl. rewrite unique_from_skip; [done|].
    eapply Forall_impl; [exact Hrest|]. intros y [Hy|Hy]; [|done].
    by apply elem_of_nil in Hy.
  - simpl. case_decide as Hx.
    + apply IH. eapply Forall_impl; [exact Hrest|].
      intros y [[->|Hy]%elem_of_cons|Hy]; auto.
    + f_equal. apply IH. eapply Forall_impl; [exact Hrest|].
      intros y [[->|Hy]%elem_of_cons|Hy]; [right; by left | by left | right; by right].
Qed.

Lemma columns_from_dict_uniform (ks : list string) (chunk : list pydict) :
  chunk ≠ [] → Forall (λ d, keys d = ks) chunk →
  columns (from_dict chunk) = unique ks.
Proof.
  intros Hne Hks. destruct chunk as [|d chunk]; [done|].
  apply Forall_cons in Hks as [Hd Hks].
  unfold from_dict. cbn [columns]. rewrite bind_cons, Hd. unfold unique.
  apply unique_from_absorb, Forall_forall.
  intros k (d' & Hk & Hd')%list_elem_of_bind. left.
  by rewrite <-(proj1 (Forall_forall _ _) Hks d' Hd').
Qed.

Lemma parse_lines_Line (parse : raw_line → result pydict) (ds : list pydict) :
  Forall (λ d, parse (Line d) = Ok d) ds →
  parse_lines parse (Line <$> ds) = Ok ds.
Proof.
  induction 1 as [|d ds Hparse _ IH]; [done|].
  csimpl. by rewrite Hparse, IH.
Qed.

Lemma chunked_fmap {A B} (f : A → B) (chunksize : nat) (buf l : list A) :
  chunked chunksize (f <$> buf) (f <$> l)
  = (λ c : list A, f <$> c) <$> chunked chunksize buf l.
Proof.
  revert buf. induction l as [|x l IH]; intros buf; csimpl.
  - by destruct buf.
  - change ((f <$> buf) ++ [f x]) with ((f <$> buf) ++ (f <$> [x])).
    rewrite <-(fmap_app f buf [x]), !length_fmap.
    case_decide; [|apply IH]. csimpl. f_equal. apply (IH []).
Qed.

Lemma to_csv_rows_app (cols : list string) (a b : list pydict) :
  to_csv_rows {| columns := cols; rows := a ++ b |}
  = to_csv_rows {| columns := cols; rows := a |}
    ++ to_csv_rows {| columns := cols; rows := b |}.
Proof. unfold to_csv_rows. cbn [columns rows]. apply fmap_app. Qed.

Section compactor.
Context (G : Generator).
Implicit Types (w : world G).

Lemma compact_chunks_uniform (ks : list string) (chunks : list (list pydict)) w :
  Forall (λ c, c ≠ [] ∧
               Forall (λ d, keys d = ks ∧ json_loads (Line d) = Ok d) c) chunks →
  review_dropped ⊆ ks →
  for_each G (compact_chunk G) ((λ c : list pydict, Line <$> c) <$> chunks) w =
    (Ok (),
     match chunks with
     | [] => w
     | _ =>
         with_files G
           (<[kcore_5_compact_csv :=
                default [] (files w !! kcore_5_compact_csv)
                ++ to_csv_rows
                     {| columns := filter (λ c, c ∉ review_dropped) (unique ks);
                        rows := mjoin chunks |}]> (files w)) w
     end).
Proof.
  intros Hchunks Hsub. revert w.
  induction Hchunks as [|c chunks [Hne Hks] _ IH]; intros w; [done|].
  csimpl. unfold mbind at 1, M_bind at 1.
  assert (Hstep : compact_chunk G (Line <$> c) w =
            (Ok (),
             with_files G
               (<[kcore_5_compact_csv :=
                    default [] (files w !! kcore_5_compact_csv)
                    ++ to_csv_rows
                         {| columns := filter (λ c, c ∉ review_dropped) (unique ks);
                            rows := c |}]> (files w)) w)).
  { unfold compact_chunk. unfold_M.
    rewrite parse_lines_Line
      by (eapply Forall_impl; [exact Hks|]; by intros d [_ ?]).
    unfold drop_columns.
    rewrite (columns_from_dict_uniform ks c Hne)
      by (eapply Forall_impl; [exact Hks|]; by intros d [? _]).
    rewrite decide_True; [done|].
    intros k Hk. apply elem_of_unique. by apply Hsub. }
  rewrite Hstep, IH. f_equal.
  destruct chunks as [|c' chunks].
  - simpl. by rewrite app_nil_r.
  - cbn [files with_files]. rewrite lookup_insert_eq, insert_insert_eq.
    cbn [default from_option]. unfold id.
    change (mjoin (c :: c' :: chunks)) with (c ++ mjoin (c' :: chunks)).
    by rewrite to_csv_rows_app, app_assoc.
Qed.

(** X1: on a corpus whose records the JSON reader takes and which all
    carry the same fields in the same order, the six dropped ones among
    them, cell 8 completes and writes one line per record, each with one
    field per kept column, whatever the chunk size: the last, shorter chunk
    of the reader is written too. *)
Theorem compactor_whole_corpus CHUNK_SIZE w (recs : list pydict) (ks : list string) :
  files w !! kcore_5_compact_csv = None →
  CHUNK_SIZE ≠ 0 →
  kcore_5_json w = Line <$> recs →
  recs ≠ [] →
  Forall (λ d, json_loads (Line d) = Ok d) recs →
  Forall (λ d, keys d = ks) recs →
  review_dropped ⊆ ks →
  ∃ file,
    cell_8 G CHUNK_SIZE w
    = (Ok (), with_files G (<[kcore_5_compact_csv := file]> (files w)) w) ∧
    length file = length recs ∧
    Forall (λ fields,
              length fields
              = length (filter (λ c, c ∉ review_dropped) (unique ks)))
      file.
Proof.
  intros Hno Hsize Hjson Hne Hloads Hks Hsub.
  exists (to_csv_rows {| columns := filter (λ c, c ∉ review_dropped) (unique ks);
                         rows := recs |}).
  split_and!.
  - unfold cell_8. unfold_M.
    rewrite bool_decide_eq_false_2 by (rewrite Hno; by intros [? ?]).
    rewrite decide_False by done. rewrite Hjson.
    change (@nil raw_line) with (Line <$> @nil pydict).
    rewrite chunked_fmap.
    pose proof (chunked_covers CHUNK_SIZE [] recs) as Hcover. simpl in Hcover.
    rewrite (compact_chunks_uniform ks); [| |done].
    + destruct (chunked CHUNK_SIZE [] recs) as [|c chunks] eqn:Hchunks.
      { simpl in Hcover. by subst. }
      by rewrite Hcover, Hno.
    + destruct (chunked_batches CHUNK_SIZE recs) as (_ & Hlen & _); [lia|].
      apply Forall_forall. intros c Hc. split.
      * pose proof (proj1 (Forall_forall _ _) Hlen c Hc) as Hpos.
        intros ->. simpl in Hpos. lia.
      * apply Forall_forall. intros d Hd.
        assert (d ∈ recs) as Hin.
        { rewrite <-Hcover. apply list_elem_of_join. eauto. }
        split.
        -- by apply (proj1 (Forall_forall _ _) Hks).
        -- by apply (proj1 (Forall_forall _ _) Hloads).
  - unfold to_csv_rows. cbn [rows]. by rewrite length_fmap.
  - apply Forall_forall. unfold to_csv_rows. cbn [rows columns].
    intros fields (r & -> & _)%list_elem_of_fmap. by rewrite length_fmap.
Qed.
End compactor.

(** ** The metadata join filter on a corpus of complete records *)

Lemma elem_of_keys (d : pydict) (k : string) :
  k ∈ keys d ↔ is_Some (dict_get d k).
Proof.
  induction d as [|[k' v] d IH]; unfold keys in *; csimpl.
  - split; [by intros ?%elem_of_nil | by intros [? ?]].
  - rewrite elem_of_cons. case_decide; [naive_solver|].
    rewrite IH. naive_solver.
Qed.

Lemma keys_pop_keys (ks : list string) (d : pydict) (k : string) :
  k ∉ ks → k ∈ keys d → k ∈ keys (pop_keys ks d).
Proof.
  rewrite !elem_of_keys, dict_get_pop_keys. intros Hk.
  by rewrite decide_False.
Qed.

Lemma metadata_names_kept (d : pydict) :
  metadata_names ⊆ keys d → metadata_names ⊆ keys (pop_keys metadata_popped d).
Proof.
  intros Hd k Hk. apply keys_pop_keys; [|by apply Hd].
  revert k Hk. apply Forall_forall. apply (bool_decide_unpack _). by vm_compute.
Qed.

Section metadata_complete.
Context (G : Generator).
Implicit Types (w : world G) (sample : DataFrame) (data recs : list pydict).

(** What one flush adds when the buffered records carry the five fields. *)
Lemma flush_chunk_complete sample data w :
  data ≠ [] →
  Forall (λ d, metadata_names ⊆ keys d) data →
  "asin" ∈ columns sample →
  flush_chunk G sample data w =
    let kept := filter (λ r, dict_get r "asin" ∈ products sample) data in
    (Ok (length kept),
     with_files G
       (<[metadata_sample_csv :=
            default [] (files w !! metadata_sample_csv)
            ++ to_csv_rows {| columns := metadata_names; rows := kept |}]>
          (files w)) w).
Proof.
  intros Hne Hdata Hsample. rewrite flush_chunk_unfold.
  assert (metadata_names ⊆ columns (from_dict data)) as Hcols.
  { destruct data as [|d data]; [done|]. apply Forall_cons in Hdata as [Hd _].
    intros k Hk. apply elem_of_columns_from_dict. exists d. split; [by left|].
    by apply Hd. }
  rewrite decide_True by (apply Hcols; by left).
  rewrite decide_True by done. by rewrite decide_True by done.
Qed.

Lemma metadata_loop_complete CHUNK_SIZE sample recs data total w :
  CHUNK_SIZE ≠ 0 →
  "asin" ∈ columns sample →
  length data < CHUNK_SIZE →
  Forall (λ d, metadata_names ⊆ keys d) data →
  Forall (λ d, metadata_names ⊆ keys d) recs →
  let all := data ++ (pop_keys metadata_popped <$> recs) in
  let kept := filter (λ r, dict_get r "asin" ∈ products sample)
                (take (length all / CHUNK_SIZE * CHUNK_SIZE) all) in
  metadata_loop G CHUNK_SIZE sample (Line <$> recs) data total w =
    (Ok (total + length kept),
     if decide (CHUNK_SIZE ≤ length all) then
       with_files G
         (<[metadata_sample_csv :=
              default [] (files w !! metadata_sample_csv)
              ++ to_csv_rows {| columns := metadata_names; rows := kept |}]>
            (files w)) w
     else w).
Proof.
  intros Hsize Hsample. revert data total w.
  induction recs as [|d recs IH]; intros data total w Hlen Hdata Hrecs; cbv zeta.
  - csimpl. rewrite app_nil_r, Nat.div_small by done.
    rewrite decide_False by lia. simpl. by rewrite Nat.add_0_r.
  - apply Forall_cons in Hrecs as [Hd Hrecs].
    rewrite !fmap_cons, metadata_loop_cons. cbn [literal_eval]. cbv zeta.
    set (x := pop_keys metadata_popped d).
    assert (Hx : metadata_names ⊆ keys x) by by apply metadata_names_kept.
    assert (Hdata' : Forall (λ d, metadata_names ⊆ keys d) (data ++ [x])).
    { apply Forall_app. split; [done|]. by apply Forall_singleton. }
    replace (data ++ x :: (pop_keys metadata_popped <$> recs))
      with ((data ++ [x]) ++ (pop_keys metadata_popped <$> recs))
      by (by rewrite <-app_assoc).
    case_decide as Hfull.
    + rewrite flush_chunk_complete; [|by destruct data|done..]. cbv beta iota zeta.
      rewrite (IH [] _ _); [|simpl; lia|constructor|done]. cbv zeta. simpl app.
      set (rest := pop_keys metadata_popped <$> recs).
      assert (Hdiv : length ((data ++ [x]) ++ rest) / CHUNK_SIZE * CHUNK_SIZE
                     = CHUNK_SIZE + length rest / CHUNK_SIZE * CHUNK_SIZE).
      { rewrite length_app, Hfull.
        replace (CHUNK_SIZE + length rest) with (1 * CHUNK_SIZE + length rest) by lia.
        rewrite Nat.div_add_l by done. lia. }
      set (P := λ r : pydict, dict_get r "asin" ∈ products sample).
      set (k1 := filter P (data ++ [x])).
      rewrite Hdiv, (take_app_add' (data ++ [x])) by done.
      rewrite (filter_app P (data ++ [x])). fold k1. rewrite (length_app k1).
      rewrite (decide_True (P := CHUNK_SIZE ≤ length ((data ++ [x]) ++ rest)))
        by (rewrite (length_app (data ++ [x])); lia).
      f_equal; [f_equal; lia|].
      cbn [files with_files]. rewrite lookup_insert_eq. cbn [default from_option].
      unfold id. case_decide as Hrest.
      * rewrite insert_insert_eq. by rewrite to_csv_rows_app, app_assoc.
      * rewrite Nat.div_small by lia. simpl. by rewrite !app_nil_r.
    + rewrite (IH (data ++ [x])); [done| |done..].
      rewrite length_app in *. simpl in *. lia.
Qed.
End metadata_complete.

Lemma dict_get_popped (d : pydict) (c : string) :
  c ∈ metadata_names →
  dict_get (pop_keys metadata_popped d) c = dict_get d c.
Proof.
  intros Hc. rewrite dict_get_pop_keys. rewrite decide_False; [done|].
  revert c Hc. apply Forall_forall. apply (bool_decide_unpack _). by vm_compute.
Qed.

Lemma to_csv_rows_popped (cohort_asin : list cell) (l : list pydict) :
  let P := λ r : pydict, dict_get r "asin" ∈ cohort_asin in
  to_csv_rows {| columns := metadata_names;
                 rows := filter P (pop_keys metadata_popped <$> l) |}
  = to_csv_rows {| columns := metadata_names; rows := filter P l |} ∧
  length (filter P (pop_keys metadata_popped <$> l)) = length (filter P l).
Proof.
  intros P. assert (Hasin : "asin" ∈ metadata_names) by (by left).
  induction l as [|d l [IH1 IH2]]; [done|].
  rewrite fmap_cons, !filter_cons.
  assert (HP : P (pop_keys metadata_popped d) ↔ P d)
    by (unfold P; by rewrite dict_get_popped).
  destruct (decide (P (pop_keys metadata_popped d))) as [H1|H1],
           (decide (P d)) as [H2|H2]; [|tauto|tauto|done].
  split; [|simpl; by rewrite IH2].
  unfold to_csv_rows in *. cbn [columns rows] in *. rewrite !fmap_cons, IH1.
  f_equal. apply list_fmap_ext. intros _ c Hc%list_elem_of_lookup_2.
  by rewrite dict_get_popped.
Qed.

Section metadata_cell.
Context (G : Generator).
Implicit Types (w : world G) (sample : DataFrame) (data recs : list pydict).

(** X2: when every record of the metadata corpus carries the five kept fields,
    cell 16 writes the five fields of the sampled products among the records
    of the full chunks, in order, and nothing of the records after the last
    full chunk; [total_sampled_rows] is the number of lines written.  The
    extract covers the whole corpus exactly when [CHUNK_SIZE] divides its
    length. *)
Theorem metadata_join_full_chunks CHUNK_SIZE sample w recs :
  files w !! metadata_sample_csv = None →
  CHUNK_SIZE ≠ 0 →
  "asin" ∈ columns sample →
  metadata_json w = Line <$> recs →
  Forall (λ d, metadata_names ⊆ keys d) recs →
  let sampled := λ r : pydict, dict_get r "asin" ∈ products sample in
  let kept := filter sampled (take (length recs / CHUNK_SIZE * CHUNK_SIZE) recs) in
  cell_16 G CHUNK_SIZE sample w
  = (Ok (),
     if decide (CHUNK_SIZE ≤ length recs) then
       with_files G
         (<[metadata_sample_csv :=
              to_csv_rows {| columns := metadata_names; rows := kept |}]>
            (files w)) w
     else w) ∧
  (metadata_loop G CHUNK_SIZE sample (metadata_json w) [] 0 w).1
  = Ok (length kept) ∧
  (length recs `mod` CHUNK_SIZE = 0 → kept = filter sampled recs).
Proof.
  intros Hno Hsize Hsample Hjson Hrecs sampled kept.
  pose proof (metadata_loop_complete G CHUNK_SIZE sample recs [] 0 w Hsize Hsample)
    as Hloop.
  cbv zeta in Hloop. simpl app in Hloop. rewrite length_fmap, <-fmap_take in Hloop.
  destruct (to_csv_rows_popped (products sample)
              (take (length recs / CHUNK_SIZE * CHUNK_SIZE) recs)) as [Hrows Hlen].
  rewrite Hrows, Hlen, Hno in Hloop. fold sampled in Hloop. fold kept in Hloop.
  split_and!.
  - rewrite cell_16_run, Hjson by done.
    rewrite Hloop; [done|simpl; lia|constructor|done].
  - rewrite Hjson, Hloop; [done|simpl; lia|constructor|done].
  - intros Hmod. unfold kept. rewrite take_ge; [done|].
    pose proof (Nat.div_mod_eq (length recs) CHUNK_SIZE). lia.
Qed.

(** X3: the count the loop ends with is the count it began with plus the
    number of lines it added to the artifact. *)
Theorem total_sampled_rows_counts CHUNK_SIZE sample f data total w n w' :
  metadata_loop G CHUNK_SIZE sample f data total w = (Ok n, w') →
  total ≤ n ∧
  length (default [] (files w' !! metadata_sample_csv))
  = length (default [] (files w !! metadata_sample_csv)) + (n - total).
Proof.
  revert data total w. induction f as [|line f IH]; intros data total w Hrun.
  - simpl in Hrun. injection Hrun as <- <-. split; lia.
  - rewrite metadata_loop_cons in Hrun.
    destruct (literal_eval line) as [d|e]; [|done]. cbv zeta in Hrun.
    case_decide; [|by apply IH in Hrun].
    rewrite flush_chunk_unfold in Hrun.
    repeat case_decide; try done. cbv beta iota zeta in Hrun.
    apply IH in Hrun as [Hle Hlen]. rewrite Hlen.
    cbn [files with_files]. rewrite lookup_insert_eq. cbn [default from_option].
    unfold id. rewrite length_app. unfold to_csv_rows. cbn [rows] in *.
    rewrite length_fmap. split; lia.
Qed.

Lemma metadata_loop_never_flushes CHUNK_SIZE sample recs data total w :
  CHUNK_SIZE = 0 ∨ length data + length recs < CHUNK_SIZE →
  metadata_loop G CHUNK_SIZE sample (Line <$> recs) data total w = (Ok total, w).
Proof.
  revert data. induction recs as [|d recs IH]; intros data Hsmall; [done|].
  rewrite fmap_cons, metadata_loop_cons. cbn [literal_eval]. cbv zeta.
  rewrite decide_False by (rewrite length_app; simpl in *; lia).
  apply IH. rewrite length_app. simpl in *. lia.
Qed.

(** X4: a metadata corpus shorter than [CHUNK_SIZE], or any corpus when
    [CHUNK_SIZE] is zero, makes cell 16 complete without creating the
    artifact; cell 17 then raises [FileNotFoundError]. *)
Theorem metadata_corpus_shorter_than_chunk CHUNK_SIZE sample w recs :
  files w !! metadata_sample_csv = None →
  metadata_json w = Line <$> recs →
  CHUNK_SIZE = 0 ∨ length recs < CHUNK_SIZE →
  cell_16 G CHUNK_SIZE sample w = (Ok (), w) ∧
  metadata_stages G CHUNK_SIZE sample w = (Raise FileNotFoundError, w).
Proof.
  intros Hno Hjson Hsmall.
  assert (H16 : cell_16 G CHUNK_SIZE sample w = (Ok (), w)).
  { rewrite cell_16_run, Hjson by done.
    rewrite metadata_loop_never_flushes; [done|]. simpl. lia. }
  split; [done|]. unfold metadata_stages. unfold mbind at 1, M_bind at 1.
  rewrite H16. by rewrite quality_filter_unfold, Hno.
Qed.

Lemma metadata_loop_width CHUNK_SIZE sample f data total w :
  ∃ new,
    default [] (files (metadata_loop G CHUNK_SIZE sample f data total w).2
                  !! metadata_sample_csv)
    = default [] (files w !! metadata_sample_csv) ++ new ∧
    Forall (λ fields, length fields = length metadata_names) new ∧
    (is_Some (files w !! metadata_sample_csv) →
     is_Some (files (metadata_loop G CHUNK_SIZE sample f data total w).2
                !! metadata_sample_csv)).
Proof.
  revert data total w. induction f as [|line f IH]; intros data total w.
  { exists []. by rewrite app_nil_r. }
  rewrite metadata_loop_cons.
  destruct (literal_eval line) as [d|e]; [|exists []; by rewrite app_nil_r].
  cbv zeta. case_decide; [|apply IH].
  rewrite flush_chunk_unfold.
  repeat case_decide; try (exists []; by rewrite app_nil_r).
  cbv beta iota zeta.
  match goal with
  | |- context [metadata_loop G _ _ f [] ?t ?w1] =>
      destruct (IH [] t w1) as (new & -> & Hnew & Hsome)
  end.
  cbn [files with_files] in *. rewrite lookup_insert_eq in *.
  cbn [default from_option]. unfold id.
  eexists. rewrite <-app_assoc. split; [done|]. split.
  - apply Forall_app. split; [|done].
    apply Forall_forall. unfold to_csv_rows. cbn [rows columns].
    intros fields (r & -> & _)%list_elem_of_fmap. by rewrite length_fmap.
  - intros _. by apply Hsome.
Qed.

(** X5: every line cell 16 writes has exactly the five kept fields, so the
    quality filter that follows never fails on the artifact: it completes
    when cell 16 has created the file and raises [FileNotFoundError] when it
    has not. *)
Theorem metadata_extract_well_formed CHUNK_SIZE sample w :
  files w !! metadata_sample_csv = None →
  let w' := (cell_16 G CHUNK_SIZE sample w).2 in
  Forall (λ fields, length fields = length metadata_names)
    (default [] (files w' !! metadata_sample_csv)) ∧
  (is_Some (files w' !! metadata_sample_csv) → is_ok (quality_filter G w').1 = true) ∧
  (files w' !! metadata_sample_csv = None →
   (quality_filter G w').1 = Raise FileNotFoundError).
Proof.
  intros Hno w'.
  assert (Hwidth : Forall (λ fields, length fields = length metadata_names)
                     (default [] (files w' !! metadata_sample_csv))).
  { unfold w'. rewrite cell_16_run by done.
    destruct (metadata_loop_width CHUNK_SIZE sample (metadata_json w) [] 0 w)
      as (new & Hfile & Hnew & _).
    destruct (metadata_loop G CHUNK_SIZE sample (metadata_json w) [] 0 w)
      as [[n|e] w1]; cbn [snd] in *; by rewrite Hfile, Hno. }
  split; [done|]. split.
  - intros [file Hfile]. rewrite quality_filter_unfold, Hfile.
    rewrite Hfile in Hwidth. cbn [default from_option] in Hwidth.
    destruct (read_csv_rows_full metadata_names file NoDup_metadata_names)
      as (records & -> & _); [|done].
    eapply Forall_impl; [exact Hwidth|]. intros fields Hlen. unfold id in *.
    cbv beta in Hlen. rewrite Hlen. cbn. lia.
  - intros Hnone. by rewrite quality_filter_unfold, Hnone.
Qed.
End metadata_cell.

(** ** What each cell leaves alone *)

Section frames.
Context (G : Generator).
Implicit Types (w : world G) (df : DataFrame).

Lemma touches_only_refl path w : touches_only path w w.
Proof. by repeat split. Qed.

Lemma touches_only_trans path w1 w2 w3 :
  touches_only path w1 w2 → touches_only path w2 w3 → touches_only path w1 w3.
Proof.
  intros (Hk & Hm & Hf) (Hk' & Hm' & Hf'). split_and!; [congruence..|].
  intros p Hp. by rewrite Hf', Hf.
Qed.

Lemma to_csv_frame df path mode w :
  touches_only path w (to_csv G df path mode w).2 ∧
  np_random (to_csv G df path mode w).2 = np_random w.
Proof.
  split; [|done]. split_and!; [done..|].
  intros p Hp. unfold to_csv. cbn [snd files with_files].
  by rewrite lookup_insert_ne.
Qed.

Lemma compact_chunk_frame lines w :
  touches_only kcore_5_compact_csv w (compact_chunk G lines w).2 ∧
  np_random (compact_chunk G lines w).2 = np_random w.
Proof.
  unfold compact_chunk. unfold_M.
  destruct (parse_lines json_loads lines) as [data|e];
    [|split; [apply touches_only_refl | done]].
  destruct (drop_columns (from_dict data) review_dropped) as [chunk|e];
    [|split; [apply touches_only_refl | done]].
  apply to_csv_frame.
Qed.

Lemma for_each_compact_frame chunks w :
  touches_only kcore_5_compact_csv w (for_each G (compact_chunk G) chunks w).2 ∧
  np_random (for_each G (compact_chunk G) chunks w).2 = np_random w.
Proof.
  revert w. induction chunks as [|c chunks IH]; intros w.
  { split; [apply touches_only_refl | done]. }
  cbn [for_each]. unfold mbind at 1 2, M_bind at 1 2.
  destruct (compact_chunk_frame c w) as [Ht Hg].
  destruct (compact_chunk G c w) as [[[]|e] w1]; [|done].
  destruct (IH w1) as [Ht' Hg']. cbn [snd] in *. split.
  - by eapply touches_only_trans.
  - congruence.
Qed.

Lemma cell_8_frame CHUNK_SIZE w :
  touches_only kcore_5_compact_csv w (cell_8 G CHUNK_SIZE w).2 ∧
  np_random (cell_8 G CHUNK_SIZE w).2 = np_random w.
Proof.
  unfold cell_8. unfold_M.
  destruct (bool_decide _); [split; [apply touches_only_refl | done]|].
  case_decide; [split; [apply touches_only_refl | done]|].
  apply for_each_compact_frame.
Qed.

Lemma cell_13_frame USER_SAMPLES df w :
  touches_only kcore_5_compact_sample_csv w (cell_13 G USER_SAMPLES df w).2.
Proof.
  destruct (files w !! kcore_5_compact_sample_csv) as [file|] eqn:Hfile.
  { rewrite cell_13_skip by (by rewrite Hfile). apply touches_only_refl. }
  rewrite cell_13_run by done.
  pose proof (user_cohort_unfold G USER_SAMPLES df w) as Hu. cbv zeta in Hu.
  destruct (user_cohort G USER_SAMPLES df w) as [[cohort|e] w'].
  - repeat case_decide; try done. injection Hu as _ ->.
    split_and!; [done..|]. intros p Hp. cbn [snd files with_files].
    by rewrite lookup_insert_ne.
  - repeat case_decide; injection Hu as _ ->; split_and!; done.
Qed.

Lemma metadata_loop_frame CHUNK_SIZE sample f data total w :
  touches_only metadata_sample_csv w
    (metadata_loop G CHUNK_SIZE sample f data total w).2 ∧
  np_random (metadata_loop G CHUNK_SIZE sample f data total w).2 = np_random w.
Proof.
  revert data total w. induction f as [|line f IH]; intros data total w.
  { split; [apply touches_only_refl | done]. }
  rewrite metadata_loop_cons.
  destruct (literal_eval line) as [d|e]; [|split; [apply touches_only_refl | done]].
  cbv zeta. case_decide; [|apply IH].
  destruct (flush_chunk_appends G sample (data ++ [pop_keys metadata_popped d]) w)
    as [[e ->]|(n & new & ->)]; [split; [apply touches_only_refl | done]|].
  match goal with
  | |- context [metadata_loop G _ _ f [] ?t ?w1] => destruct (IH [] t w1) as [Ht Hg]
  end.
  split; [|by rewrite Hg].
  eapply touches_only_trans; [|exact Ht].
  split_and!; [done..|]. intros p Hp. cbn [files with_files].
  by rewrite lookup_insert_ne.
Qed.

Lemma cell_16_frame CHUNK_SIZE sample w :
  touches_only metadata_sample_csv w (cell_16 G CHUNK_SIZE sample w).2 ∧
  np_random (cell_16 G CHUNK_SIZE sample w).2 = np_random w.
Proof.
  destruct (files w !! metadata_sample_csv) as [file|] eqn:Hfile.
  { rewrite cell_16_skip by (by rewrite Hfile).
    split; [apply touches_only_refl | done]. }
  rewrite cell_16_run by done.
  pose proof (metadata_loop_frame CHUNK_SIZE sample (metadata_json w) [] 0 w) as Hloop.
  by destruct (metadata_loop G CHUNK_SIZE sample (metadata_json w) [] 0 w)
    as [[n|e] w1].
Qed.

Lemma quality_filter_frame w :
  touches_only metadata_sample_csv w (quality_filter G w).2 ∧
  np_random (quality_filter G w).2 = np_random w.
Proof.
  rewrite quality_filter_unfold.
  destruct (files w !! metadata_sample_csv) as [file|];
    [|split; [apply touches_only_refl | done]].
  destruct (read_csv_rows metadata_names file) as [df|e];
    [|split; [apply touches_only_refl | done]].
  cbv zeta. split; [|done]. split_and!; [done..|].
  intros p Hp. cbn [snd files with_files]. by rewrite lookup_insert_ne.
Qed.

(** X6: every stage changes at most its own artifact: the two corpora and the
    other files are as before; only cell 7 and the sampler of cell 13 touch
    the generator; and the three [pd.read_csv] cells change nothing. *)
Theorem stages_touch_only_their_artifact CHUNK_SIZE USER_SAMPLES df sample w :
  (touches_only kcore_5_compact_csv w (cell_8 G CHUNK_SIZE w).2 ∧
   np_random (cell_8 G CHUNK_SIZE w).2 = np_random w) ∧
  touches_only kcore_5_compact_sample_csv w (cell_13 G USER_SAMPLES df w).2 ∧
  (touches_only metadata_sample_csv w (cell_16 G CHUNK_SIZE sample w).2 ∧
   np_random (cell_16 G CHUNK_SIZE sample w).2 = np_random w) ∧
  (touches_only metadata_sample_csv w (quality_filter G w).2 ∧
   np_random (quality_filter G w).2 = np_random w) ∧
  (cell_10 G w).2 = w ∧ (cell_14 G w).2 = w ∧ (cell_17 G w).2 = w.
Proof.
  split_and!.
  - apply cell_8_frame.
  - apply cell_8_frame.
  - apply cell_13_frame.
  - apply cell_16_frame.
  - apply cell_16_frame.
  - apply quality_filter_frame.
  - apply quality_filter_frame.
  - unfold cell_10, read_csv. by destruct (files w !! _).
  - unfold cell_14, read_csv. by destruct (files w !! _).
  - unfold cell_17, read_csv. by destruct (files w !! _).
Qed.
End frames.

(** ** Running the whole notebook again *)

Section notebook_rerun.
Context (G : Generator).
Implicit Types (w : world G) (df : DataFrame).






(** X8: the two inputs that stop the review stages before anything is
    written: a chunk size of zero makes the progress-bar division of cell 8
    raise, and an empty reviews corpus makes cell 8 complete without
    creating the artifact that cell 10 then fails to open. *)
Theorem compaction_edge_inputs CHUNK_SIZE USER_SAMPLES w :
  files w !! kcore_5_compact_csv = None →
  (CHUNK_SIZE = 0 →
   review_stages G CHUNK_SIZE USER_SAMPLES w
   = (Raise ZeroDivisionError, with_np_random G (seed G randomSeed) w)) ∧
  (CHUNK_SIZE ≠ 0 → kcore_5_json w = [] →
   review_stages G CHUNK_SIZE USER_SAMPLES w
   = (Raise FileNotFoundError, with_np_random G (seed G randomSeed) w)).
Proof.
  intros Hno. split.
  - intros ->. unfold review_stages, np_random_seed, cell_8. unfold_M.
    cbn [files with_np_random].
    by rewrite bool_decide_eq_false_2 by (rewrite Hno; by intros [? ?]).
  - intros Hsize Hempty. unfold review_stages, np_random_seed, cell_8, cell_10, read_csv.
    unfold_M. cbn [files with_np_random kcore_5_json].
    rewrite bool_decide_eq_false_2 by (rewrite Hno; by intros [? ?]).
    rewrite decide_False by done. cbv beta. cbn [kcore_5_json with_np_random].
    rewrite Hempty. cbn [chunked for_each]. unfold_M.
    cbn [files with_np_random]. by rewrite Hno.
Qed.
End notebook_rerun.

(** ** What sampling does to the counts per reviewer and per product *)


Lemma filter_none {A} (P : A → Prop) `{∀ x, Decision (P x)} (l : list A) :
  (∀ x, x ∈ l → ¬ P x) → filter P l = [].
Proof.
  induction l as [|x l IH]; intros Hnone; [done|].
  rewrite filter_cons_False by (apply Hnone; by left).
  apply IH. intros y Hy. apply Hnone. by right.
Qed.


Section counts.
Context (G : Generator).
Implicit Types (w : world G) (df : DataFrame).

(** The cohort the sampler returns, and the reviewers of the rows it
    keeps. *)
Lemma cohort_facts USER_SAMPLES df w w' cohort :
  user_cohort G USER_SAMPLES df w = (Ok cohort, w') →
  "reviewerID" ∈ columns df ∧
  NoDup cohort ∧ length cohort = USER_SAMPLES ∧
  (∀ u, u ∈ cohort → u ∈ reviewers df) ∧
  (∀ u, u ∈ cohort ↔
        u ∈ reviewers {| columns := columns df;
                         rows := filter (λ r, dict_get r "reviewerID" ∈ cohort)
                                   (rows df) |}).
Proof.
  intros Hrun. destruct (user_cohort_inv G _ _ _ _ _ Hrun) as (Hcol & Hle & HF).
  destruct (permutation_spec G (np_random w) _ _ Hle) as (Hlen & Hnd & _).
  assert (Hin : ∀ u, u ∈ cohort → u ∈ reviewers df).
  { intros u (i & _ & Hi)%(positions_elem_of _ _ _ _ HF).
    apply elem_of_unique. by eapply list_elem_of_lookup_2. }
  split_and!; [done| |by rewrite <-(Forall2_length _ _ _ HF)|done|].
  - eapply positions_NoDup; [apply NoDup_unique | exact Hnd | exact HF].
  - intros u. unfold reviewers at 1. cbn [rows]. rewrite list_elem_of_fmap. split.
    + intros Hu. pose proof (Hin u Hu) as (r & -> & Hr)%list_elem_of_fmap.
      exists r. split; [done|]. by apply list_elem_of_filter.
    + by intros (r & -> & [? _]%list_elem_of_filter).
Qed.


(** X10: the two ends of the sample size.  With no user to sample, cell 13
    completes and creates a sampling artifact without a line; with as many
    users as the corpus has reviewers, every review is kept. *)
Theorem sample_size_bounds df w :
  "reviewerID" ∈ columns df →
  files w !! kcore_5_compact_sample_csv = None →
  (cell_13 G 0 df w).1 = Ok () ∧
  files (cell_13 G 0 df w).2 !! kcore_5_compact_sample_csv = Some [] ∧
  (cell_13 G (length (unique (reviewers df))) df w).1 = Ok () ∧
  files (cell_13 G (length (unique (reviewers df))) df w).2
    !! kcore_5_compact_sample_csv
  = Some (to_csv_rows df).
Proof.
  intros Hcol Hno.
  assert (Hrun : ∀ n, n ≤ length (unique (reviewers df)) →
            ∃ cohort w',
              user_cohort G n df w = (Ok cohort, w') ∧
              cell_13 G n df w =
                (Ok (),
                 with_files G
                   (<[kcore_5_compact_sample_csv :=
                        to_csv_rows
                          {| columns := columns df;
                             rows := filter (λ r, dict_get r "reviewerID" ∈ cohort)
                                       (rows df) |}]> (files w')) w')).
  { intros n Hn. destruct (user_cohort_ok G n df w Hcol Hn) as (cohort & Hc & _).
    eexists _, _. split; [exact Hc|]. by rewrite cell_13_run, Hc. }
  destruct (Hrun 0) as (c0 & w0 & Hc0 & ->); [lia|].
  destruct (Hrun (length (unique (reviewers df)))) as (c1 & w1 & Hc1 & ->); [lia|].
  cbn [fst snd files with_files]. rewrite !lookup_insert_eq.
  split_and!; [done| |done|]; f_equal.
  - destruct (cohort_facts _ _ _ _ _ Hc0) as (_ & _ & Hlen & _).
    destruct c0; [|done]. unfold to_csv_rows. cbn [rows].
    rewrite filter_none; [done|]. by intros r _ ?%elem_of_nil.
  - destruct (cohort_facts _ _ _ _ _ Hc1) as (_ & Hnd & Hlen & Hin & _).
    assert (c1 ≡ₚ unique (reviewers df)) as Hperm.
    { apply submseteq_length_Permutation; [|lia].
      apply NoDup_submseteq; [done|]. intros u Hu. apply elem_of_unique. by apply Hin. }
    rewrite filter_Forall_id; [by destruct df|].
    apply Forall_forall. intros r Hr. rewrite Hperm. apply elem_of_unique.
    unfold reviewers. apply list_elem_of_fmap. eauto.
Qed.
End counts.

(** ** The join is a membership test *)

Lemma filter_fmap {A B} (f : A → B) (P : B → Prop) `{∀ y, Decision (P y)}
    (l : list A) :
  filter P (f <$> l) = f <$> filter (λ x, P (f x)) l.
Proof.
  induction l as [|x l IH]; [done|].
  rewrite fmap_cons, !filter_cons, IH. by case_decide.
Qed.

Section membership.
Context (G : Generator).
Implicit Types (w : world G) (sample : DataFrame).

Lemma metadata_loop_same_products CHUNK_SIZE sample sample2 f data total w :
  "asin" ∈ columns sample → "asin" ∈ columns sample2 →
  (∀ c, c ∈ products sample ↔ c ∈ products sample2) →
  metadata_loop G CHUNK_SIZE sample f data total w
  = metadata_loop G CHUNK_SIZE sample2 f data total w.
Proof.
  intros Hcol Hcol2 Hsame. revert data total w.
  induction f as [|line f IH]; intros data total w; [done|].
  rewrite !metadata_loop_cons. destruct (literal_eval line) as [d|e]; [|done].
  cbv zeta. case_decide; [|apply IH].
  rewrite !flush_chunk_unfold.
  rewrite (decide_True (P := "asin" ∈ columns sample)) by done.
  rewrite (decide_True (P := "asin" ∈ columns sample2)) by done.
  repeat case_decide; try done. cbv beta iota zeta.
  rewrite (list_filter_iff (λ r, dict_get r "asin" ∈ products sample)
             (λ r, dict_get r "asin" ∈ products sample2)) by (intros r; apply Hsame).
  apply IH.
Qed.

(** X12: cell 16 looks at the sampled reviews only through the set of their
    product identifiers: two frames with the same products, however often
    and in whatever order they occur, give the same run. *)
Theorem metadata_join_is_membership CHUNK_SIZE sample sample2 w :
  "asin" ∈ columns sample → "asin" ∈ columns sample2 →
  (∀ c, c ∈ products sample ↔ c ∈ products sample2) →
  cell_16 G CHUNK_SIZE sample w = cell_16 G CHUNK_SIZE sample2 w.
Proof.
  intros Hcol Hcol2 Hsame.
  destruct (files w !! metadata_sample_csv) as [file|] eqn:Hfile.
  - by rewrite !cell_16_skip by (by rewrite Hfile).
  - rewrite !cell_16_run by done.
    by rewrite (metadata_loop_same_products _ sample sample2).
Qed.


End membership.

(** ** A reviews corpus with a line that does not parse *)


Section compactor_crash.
Context (G : Generator).
Implicit Types (w : world G).





End compactor_crash.

(** ** The further properties on the scenario *)

(** Seven lines in batches of three. *)
Lemma chunked_batches_witness :
  chunked 3 [] [1; 2; 3; 4; 5; 6; 7] = [[1; 2; 3]; [4; 5; 6]; [7]] ∧
  mjoin (chunked 3 [] [1; 2; 3; 4; 5; 6; 7]) = [1; 2; 3; 4; 5; 6; 7] ∧
  Forall (λ c, 0 < length c ≤ 3) (chunked 3 [] [1; 2; 3; 4; 5; 6; 7]).
Proof.
  split; [done|].
  destruct (chunked_batches 3 [1; 2; 3; 4; 5; 6; 7]) as (Hjoin & Hlen & _); [lia|].
  by split.
Defined.

(** X1: the twelve reviews of the scenario, compacted with chunks of five:
    twelve lines of three fields. *)
Lemma compactor_whole_corpus_witness :
  ∃ file,
    cell_8 rotating 5 Scenario.fresh
    = (Ok (), with_files rotating
                (<[kcore_5_compact_csv := file]> (files Scenario.fresh))
                Scenario.fresh) ∧
    length file = 12 ∧
    Forall (λ fields, length fields = 3) file.
Proof.
  destruct (compactor_whole_corpus rotating 5 Scenario.fresh
              (records_of Scenario.reviews)
              ["reviewerID"; "asin"; "reviewerName"; "helpful"; "reviewText";
               "overall"; "summary"; "unixReviewTime"; "reviewTime"])
    as (file & Hcell & Hlen & Hwidth).
  - by vm_compute.
  - lia.
  - by vm_compute.
  - by vm_compute.
  - apply (bool_decide_unpack _). by vm_compute.
  - apply (bool_decide_unpack _). by vm_compute.
  - apply (bool_decide_unpack _). by vm_compute.
  - exists file. split_and!; [done| |].
    + rewrite Hlen. by vm_compute.
    + eapply Forall_impl; [exact Hwidth|]. intros fields ->. by vm_compute.
Defined.

(** X2: the five products of the scenario with chunks of two: the fifth is not
    in a full chunk. *)
Lemma metadata_join_full_chunks_witness :
  let recs := records_of Scenario.products_corpus in
  let sampled := λ r : pydict, dict_get r "asin" ∈ products Scenario.sampled in
  cell_16 rotating 2 Scenario.sampled Scenario.fresh
  = (Ok (),
     with_files rotating
       (<[metadata_sample_csv :=
            to_csv_rows {| columns := metadata_names;
                           rows := filter sampled (take 4 recs) |}]>
          (files Scenario.fresh)) Scenario.fresh) ∧
  (metadata_loop rotating 2 Scenario.sampled (metadata_json Scenario.fresh) [] 0
     Scenario.fresh).1 = Ok 3.
Proof.
  intros recs sampled.
  destruct (metadata_join_full_chunks rotating 2 Scenario.sampled Scenario.fresh recs)
    as (Hcell & Hcount & _).
  - by vm_compute.
  - lia.
  - apply (bool_decide_unpack _). by vm_compute.
  - by vm_compute.
  - apply (bool_decide_unpack _). by vm_compute.
  - split.
    + rewrite Hcell. rewrite decide_True by (vm_compute; lia). done.
    + rewrite Hcount. by vm_compute.
Defined.

(** X3: the count of the scenario with chunks of two: three lines. *)
Lemma total_sampled_rows_counts_witness :
  let r := metadata_loop rotating 2 Scenario.sampled
             (metadata_json Scenario.fresh) [] 0 Scenario.fresh in
  r.1 = Ok 3 ∧
  length (default [] (files r.2 !! metadata_sample_csv)) = 3.
Proof.
  intros r. assert (Hrun : r = (Ok 3, r.2)).
  { assert (r.1 = Ok 3) as H1 by (by vm_compute). destruct r. simpl in *. by subst. }
  split; [by rewrite Hrun|].
  destruct (total_sampled_rows_counts rotating _ _ _ _ _ _ _ _ Hrun) as [_ Hlen].
  rewrite Hlen. by vm_compute.
Defined.

(** X4: the five products of the scenario with chunks of six. *)
Lemma metadata_corpus_shorter_than_chunk_witness :
  cell_16 rotating 6 Scenario.sampled Scenario.fresh = (Ok (), Scenario.fresh) ∧
  metadata_stages rotating 6 Scenario.sampled Scenario.fresh
  = (Raise FileNotFoundError, Scenario.fresh).
Proof.
  apply (metadata_corpus_shorter_than_chunk rotating 6 Scenario.sampled Scenario.fresh
           (records_of Scenario.products_corpus)).
  - by vm_compute.
  - by vm_compute.
  - right. vm_compute. lia.
Defined.

(** X5: the scenario with chunks of two, and with chunks of six. *)
Lemma metadata_extract_well_formed_witness :
  is_ok (quality_filter rotating
           (cell_16 rotating 2 Scenario.sampled Scenario.fresh).2).1 = true ∧
  (quality_filter rotating
     (cell_16 rotating 6 Scenario.sampled Scenario.fresh).2).1
  = Raise FileNotFoundError.
Proof.
  destruct (metadata_extract_well_formed rotating 2 Scenario.sampled Scenario.fresh)
    as (_ & Hsome & _); [by vm_compute|].
  destruct (metadata_extract_well_formed rotating 6 Scenario.sampled Scenario.fresh)
    as (_ & _ & Hnone); [by vm_compute|].
  split.
  - apply Hsome. apply (bool_decide_unpack _). by vm_compute.
  - apply Hnone. by vm_compute.
Defined.


(** X8: the scenario with a chunk size of zero, and a world without reviews. *)
Lemma compaction_edge_inputs_witness :
  review_stages rotating 0 3 Scenario.fresh
  = (Raise ZeroDivisionError, Scenario.seeded) ∧
  review_stages rotating 2 3 (@mkWorld rotating [] [] ∅ (0 : nat))
  = (Raise FileNotFoundError, @mkWorld rotating [] [] ∅ (Z.to_nat randomSeed)).
Proof.
  destruct (compaction_edge_inputs rotating 0 3 Scenario.fresh) as [Hzero _];
    [by vm_compute|].
  destruct (compaction_edge_inputs rotating 2 3 (@mkWorld rotating [] [] ∅ (0 : nat)))
    as [_ Hempty]; [by vm_compute|].
  split.
  - by rewrite Hzero.
  - rewrite Hempty; done.
Defined.


(** X10: the scenario with no user and with all five. *)
Lemma sample_size_bounds_witness :
  files (cell_13 rotating 0 Scenario.compacted Scenario.seeded).2
    !! kcore_5_compact_sample_csv = Some [] ∧
  files (cell_13 rotating 5 Scenario.compacted Scenario.seeded).2
    !! kcore_5_compact_sample_csv = Some (to_csv_rows Scenario.compacted).
Proof.
  destruct (sample_size_bounds rotating Scenario.compacted Scenario.seeded)
    as (_ & Hnone & _ & Hall).
  - apply (bool_decide_unpack _). by vm_compute.
  - by vm_compute.
  - split; [exact Hnone | exact Hall].
Defined.


(** X12: the sampled reviews of the scenario and a frame that lists each of
    their four products once, in another order. *)
Lemma metadata_join_is_membership_witness :
  let listing :=
    from_dict [[("asin", PStr "B5")]; [("asin", PStr "B1")];
               [("asin", PStr "B4")]; [("asin", PStr "B3")]] in
  cell_16 rotating 2 Scenario.sampled Scenario.fresh
  = cell_16 rotating 2 listing Scenario.fresh.
Proof.
  intros listing.
  apply (metadata_join_is_membership rotating 2 Scenario.sampled listing Scenario.fresh).
  - apply (bool_decide_unpack _). by vm_compute.
  - apply (bool_decide_unpack _). by vm_compute.
  - assert (Hsub : products Scenario.sampled ⊆ products listing
                   ∧ products listing ⊆ products Scenario.sampled).
    { split; apply (bool_decide_unpack _); by vm_compute. }
    destruct Hsub as [H1 H2]. intros c. split; [apply H1 | apply H2].
Defined.


